(** * Blood-brain-barrier classification notebook: a shallow embedding

    The notebook [DecisionTree_Classification.ipynb] is a linear script of
    cells: it loads a table of compounds, derives a binary label, computes
    molecular descriptors row by row, selects the feature columns, splits the
    data twice, fits decision trees for a range of depths and evaluates the
    chosen one with a confusion matrix, precision and recall.

    Each cell is translated statement by statement.  Library calls of the
    notebook (pandas, RDKit, scikit-learn) are modelled with the arguments
    the notebook passes, every omitted argument taking the library default.
    Floating-point numbers are read as the rationals they stand for.  Where
    scikit-learn rounds (it converts the samples to 32-bit floats, and the
    splitter adds its threshold to a value in 32-bit arithmetic), the
    properties that depend on it are stated for samples on which the
    rounding changes nothing ([well_spaced]). *)

From Stdlib Require Import List String ZArith QArith Qround Bool Arith Lia.
From Stdlib Require Import Permutation ZifyNat.
From Stdlib Require Import Reals Qreals Lra.
From Stdlib Require Import Sorted.
From Stdlib Require Lqa.
Import ListNotations.

Open Scope string_scope.
Open Scope list_scope.
Open Scope nat_scope.

(** ** Exceptions and results *)

(** The Python exceptions the notebook can run into. *)
Inductive exn : Type :=
| KeyError (missing : list string)
| ValueError (msg : string)
| ArgumentError.

Inductive result (A : Type) : Type :=
| Ok (a : A)
| Raise (e : exn).

Arguments Ok {A} a.
Arguments Raise {A} e.

Definition bind {A B : Type} (r : result A) (k : A -> result B) : result B :=
  match r with
  | Ok a => k a
  | Raise e => Raise e
  end.

Notation "x <- r ;; k" := (bind r (fun x => k))
  (at level 61, r at next level, right associativity).

(** ** Tables *)

(** A cell of a pandas table.  [NaN] is the missing value. *)
Inductive value : Type :=
| Str (s : string)
| Int (z : Z)
| Float (q : Q)
| NaN.

Definition isna (v : value) : bool :=
  match v with
  | NaN => true
  | _ => false
  end.

(** [v == s] for a string literal [s], as in [table['BBB+/BBB-'] == 'BBB+']. *)
Definition eq_str (v : value) (s : string) : bool :=
  match v with
  | Str s' => String.eqb s' s
  | _ => false
  end.

(** A [DataFrame]: the column labels, the row labels, and the block of data
    read through both. *)
Record DataFrame : Type := mkDataFrame {
  columns : list string;
  index : list nat;
  cell : nat -> string -> value
}.

Definition has_column (df : DataFrame) (c : string) : bool :=
  existsb (String.eqb c) (columns df).

(** [df.loc[:, cols]]: a label missing from the columns raises [KeyError]. *)
Definition loc_columns (df : DataFrame) (cols : list string) : result DataFrame :=
  match filter (fun c => negb (has_column df c)) cols with
  | [] =>
      Ok {| columns := cols;
            index := index df;
            cell := fun i c =>
              if existsb (String.eqb c) cols then cell df i c else NaN |}
  | missing => Raise (KeyError missing)
  end.

(** [df.dropna(subset=c)]: keeps the rows whose cell in column [c] is present. *)
Definition dropna (df : DataFrame) (subset : string) : result DataFrame :=
  if has_column df subset then
    Ok {| columns := columns df;
          index := filter (fun i => negb (isna (cell df i subset))) (index df);
          cell := cell df |}
  else Raise (KeyError [subset]).

(** [df.reset_index(drop=True, inplace=True)]: the rows keep their order and
    are relabelled 0, 1, 2, ... *)
Definition reset_index (df : DataFrame) : DataFrame :=
  {| columns := columns df;
     index := seq 0 (List.length (index df));
     cell := fun k c =>
       if k <? List.length (index df) then cell df (nth k (index df) 0) c else NaN |}.

(** [df.loc[rows, c] = v] for a row selector [rows] (a mask, a single label,
    or [:]).  A column that does not exist yet is appended, filled with [NaN]
    outside the selected rows. *)
Definition loc_set (df : DataFrame) (rows : nat -> bool) (c : string) (v : value)
  : DataFrame :=
  {| columns := if has_column df c then columns df else columns df ++ [c];
     index := index df;
     cell := fun i d =>
       if String.eqb d c then
         if rows i then v
         else if has_column df c then cell df i d else NaN
       else cell df i d |}.

Definition all_rows : nat -> bool := fun _ => true.
Definition one_row (i : nat) : nat -> bool := fun j => Nat.eqb j i.

(** The statement [df.loc[rows, c] = v] for a scalar [v]: pandas refuses to
    add a column to a frame that has no rows. *)
Definition loc_setitem (df : DataFrame) (rows : nat -> bool) (c : string)
           (v : value) : result DataFrame :=
  if negb (has_column df c) && (List.length (index df) =? 0) then
    Raise (ValueError "cannot set a frame with no defined index and a scalar")
  else Ok (loc_set df rows c v).

(** [df.loc[:, cols].values]: one list of cells per row, in index order. *)
Definition values (df : DataFrame) (cols : list string) : result (list (list value)) :=
  sub <- loc_columns df cols ;;
  Ok (map (fun i => map (cell sub i) cols) (index sub)).

(** ** Cell 5: the loader *)

Definition required_columns : list string :=
  ["compound_name"; "IUPAC_name"; "SMILES"; "BBB+/BBB-"].

Definition loader (tmp : DataFrame) : result DataFrame :=
  table <- loc_columns tmp required_columns ;;
  table <- dropna table "BBB+/BBB-" ;;
  let table := reset_index table in
  table <- loc_setitem table all_rows "BBB_class" (Int 0) ;;
  table <- loc_setitem table
             (fun i => eq_str (cell table i "BBB+/BBB-") "BBB+")
             "BBB_class" (Int 1) ;;
  Ok table.

(** The rows of the input the loader keeps: those with a label. *)
Definition labelled (tmp : DataFrame) : list nat :=
  filter (fun i => negb (isna (cell tmp i "BBB+/BBB-"))) (index tmp).

Definition has_required (tmp : DataFrame) : bool :=
  forallb (has_column tmp) required_columns.

(** The derived class of a categorical value. *)
Definition class_of (v : value) : value :=
  if eq_str v "BBB+" then Int 1 else Int 0.

(** ** Cell 7: the descriptor loop *)

(** RDKit, as the notebook uses it: the SMILES parser, which returns [None]
    for a string it cannot parse, and the six descriptor functions. *)
Class RDKit : Type := {
  Mol : Type;
  MolFromSmiles : string -> option Mol;
  ExactMolWt : Mol -> Q;
  CalcTPSA : Mol -> Q;
  NumRotatableBonds : Mol -> Z;
  NumHDonors : Mol -> Z;
  NumHAcceptors : Mol -> Z;
  MolLogP : Mol -> Q
}.

Section Extractor.
Context {rdkit : RDKit}.

(** [Chem.MolFromSmiles(v)] on a table cell: the binding accepts a string
    only, any other Python object (a missing value is the float [nan]) is
    refused with an argument error. *)
Definition mol_from_smiles (v : value) : result (option Mol) :=
  match v with
  | Str s => Ok (MolFromSmiles s)
  | _ => Raise ArgumentError
  end.

(** A descriptor function applied to the parser's result: [None] is not a
    molecule, the call raises. *)
Definition call {A : Type} (f : Mol -> A) (mol : option Mol) : result A :=
  match mol with
  | Some m => Ok (f m)
  | None => Raise ArgumentError
  end.

(** The loop runs on the table in place: a statement maps the table to the
    table after it, together with its value or the exception it raised. *)
Definition stmt (A : Type) : Type := DataFrame -> DataFrame * result A.

Definition ret {A : Type} (a : A) : stmt A := fun table => (table, Ok a).

Definition seq_stmt {A B : Type} (s : stmt A) (k : A -> stmt B) : stmt B :=
  fun table =>
    match s table with
    | (table', Ok a) => k a table'
    | (table', Raise e) => (table', Raise e)
    end.

Definition read_cell (i : nat) (c : string) : stmt value :=
  fun table => (table, Ok (cell table i c)).

Definition eval {A : Type} (r : result A) : stmt A :=
  fun table => (table, r).

(** [table.loc[i, c] = v], for a label [i] of the index: the frame has rows. *)
Definition assign (i : nat) (c : string) (v : value) : stmt unit :=
  fun table => (loc_set table (one_row i) c v, Ok tt).

Notation "x <~ s ;; k" := (seq_stmt s (fun x => k))
  (at level 61, s at next level, right associativity).
Notation "s ;;; k" := (seq_stmt s (fun _ => k))
  (at level 61, right associativity).

(** The body of the loop for the row labelled [i]. *)
Definition descriptor_row (i : nat) : stmt unit :=
  smiles <~ read_cell i "SMILES" ;;
  mol <~ eval (mol_from_smiles smiles) ;;
  w <~ eval (call ExactMolWt mol) ;;
  assign i "MolWt" (Float w) ;;;
  t <~ eval (call CalcTPSA mol) ;;
  assign i "TPSA" (Float t) ;;;
  r <~ eval (call NumRotatableBonds mol) ;;
  assign i "nRotB" (Int r) ;;;
  d <~ eval (call NumHDonors mol) ;;
  assign i "HBD" (Int d) ;;;
  a <~ eval (call NumHAcceptors mol) ;;
  assign i "HBA" (Int a) ;;;
  p <~ eval (call MolLogP mol) ;;
  assign i "LogP" (Float p).

(** [for i in table.index: ...] *)
Fixpoint for_each (labels : list nat) (body : nat -> stmt unit) : stmt unit :=
  match labels with
  | [] => ret tt
  | i :: rest => body i ;;; for_each rest body
  end.

Definition descriptor_loop : stmt unit :=
  fun table => for_each (index table) descriptor_row table.

(** ** Cell 10: features and target *)

Definition descriptors_selected : list string :=
  ["MolWt"; "TPSA"; "HBD"; "HBA"; "LogP"].

Definition features (table : DataFrame) : result (list (list value)) :=
  values table descriptors_selected.

Definition target (table : DataFrame) : result (list (list value)) :=
  values table ["BBB_class"].

(** Cells 5 to 10 in sequence: the run stops at the first exception. *)
Definition feature_table (tmp : DataFrame) : result DataFrame :=
  table <- loader tmp ;;
  match descriptor_loop table with
  | (table', Ok _) => Ok table'
  | (_, Raise e) => Raise e
  end.

Definition x_and_y (tmp : DataFrame)
  : result (list (list value) * list (list value)) :=
  table <- feature_table tmp ;;
  x <- features table ;;
  y <- target table ;;
  Ok (x, y).

End Extractor.

(** The descriptor columns the loop writes, in the order it writes them. *)
Definition descriptor_columns : list string :=
  ["MolWt"; "TPSA"; "nRotB"; "HBD"; "HBA"; "LogP"].

(** ** Vocabulary of the statements below *)

Section Vocabulary.
Context {rdkit : RDKit}.

(** The molecule of row [i], when its SMILES cell is a string that parses. *)
Definition parsed (table : DataFrame) (i : nat) : option Mol :=
  match cell table i "SMILES" with
  | Str s => MolFromSmiles s
  | _ => None
  end.

(** The value each descriptor column receives for a molecule. *)
Definition descriptor_value (m : Mol) (c : string) : value :=
  if String.eqb c "MolWt" then Float (ExactMolWt m)
  else if String.eqb c "TPSA" then Float (CalcTPSA m)
  else if String.eqb c "nRotB" then Int (NumRotatableBonds m)
  else if String.eqb c "HBD" then Int (NumHDonors m)
  else if String.eqb c "HBA" then Int (NumHAcceptors m)
  else if String.eqb c "LogP" then Float (MolLogP m)
  else NaN.

(** The six assignments of one pass through the loop body. *)
Definition write_row (i : nat) (m : Mol) (table : DataFrame) : DataFrame :=
  fold_left
    (fun t c => loc_set t (one_row i) c (descriptor_value m c))
    descriptor_columns table.

(** The vector of all six descriptors, as the specification words it. *)
Definition six_descriptors (m : Mol) : list value :=
  map (descriptor_value m) descriptor_columns.

(** The vector of the selected descriptors. *)
Definition selected_descriptors (m : Mol) : list value :=
  map (descriptor_value m) descriptors_selected.

End Vocabulary.

(** A table is tidy when a column it does not have reads as missing. *)
Definition tidy (df : DataFrame) : Prop :=
  forall i c, has_column df c = false -> cell df i c = NaN.

Definition is_descriptor (c : string) : bool :=
  existsb (String.eqb c) descriptor_columns.

Definition mem (i : nat) (l : list nat) : bool := existsb (Nat.eqb i) l.

Section Written.
Context {rdkit : RDKit}.

(** What a descriptor cell of row [j] holds once the rows [done] have been
    processed, starting from [table]. *)
Definition written (table : DataFrame) (done : list nat) (j : nat) (c : string)
  : value :=
  if mem j done then
    match parsed table j with
    | Some m => descriptor_value m c
    | None => NaN
    end
  else cell table j c.

(** The state after the loop over [labels], and how it ended. *)
Definition loop_post (t : DataFrame) (labels : list nat)
           (t' : DataFrame) (r : result unit) : Prop :=
  match r with
  | Ok _ =>
      Forall (fun i => parsed t i <> None) labels /\
      (forall j c, is_descriptor c = true -> cell t' j c = written t labels j c) /\
      (labels <> [] -> forall c, is_descriptor c = true -> has_column t' c = true)
  | Raise e =>
      e = ArgumentError /\
      exists before i after,
        labels = before ++ i :: after /\
        Forall (fun i => parsed t i <> None) before /\
        parsed t i = None /\
        forall j c, is_descriptor c = true -> cell t' j c = written t before j c
  end.

End Written.

(** ** Sample data *)

(** A table as [pd.read_table] returns it: rows labelled 0, 1, 2, ... *)
Definition position (c : string) (cols : list string) : option nat :=
  (fix go (l : list string) (k : nat) : option nat :=
     match l with
     | [] => None
     | d :: l' => if String.eqb c d then Some k else go l' (S k)
     end) cols 0.

Definition read_table (cols : list string) (rows : list (list value)) : DataFrame :=
  {| columns := cols;
     index := seq 0 (List.length rows);
     cell := fun i c =>
       match position c cols with
       | Some j => nth j (nth i rows []) NaN
       | None => NaN
       end |}.

(** Two alcohols stand for RDKit in the examples; every other string is
    refused by the parser. *)
Inductive alcohol : Type := ethanol | butanol.

#[local] Open Scope Q_scope.

Definition two_alcohols : RDKit := {|
  Mol := alcohol;
  MolFromSmiles := fun s =>
    if String.eqb s "CCO" then Some ethanol
    else if String.eqb s "CCCCO" then Some butanol
    else None;
  ExactMolWt := fun m =>
    match m with ethanol => 46041865 # 1000000 | butanol => 74073165 # 1000000 end;
  CalcTPSA := fun _ => 2023 # 100;
  NumRotatableBonds := fun m => match m with ethanol => 0%Z | butanol => 2%Z end;
  NumHDonors := fun _ => 1%Z;
  NumHAcceptors := fun _ => 1%Z;
  MolLogP := fun m =>
    match m with ethanol => (-14) # 10000 | butanol => 7788 # 10000 end
|}.

#[local] Close Scope Q_scope.

Definition sample_columns : list string :=
  ["NO."; "compound_name"; "IUPAC_name"; "SMILES"; "BBB+/BBB-"].

(** Three records; the second has no permeability value. *)
Definition sample_table : DataFrame :=
  read_table sample_columns
    [ [Int 1; Str "ethanol"; Str "ethanol"; Str "CCO"; Str "BBB+"];
      [Int 2; Str "butanol"; Str "butan-1-ol"; Str "CCCCO"; NaN];
      [Int 3; NaN; Str "butan-1-ol"; Str "CCCCO"; Str "BBB-"] ].

(** No record has a permeability value. *)
Definition unlabelled_table : DataFrame :=
  read_table sample_columns
    [ [Int 1; Str "ethanol"; Str "ethanol"; Str "CCO"; NaN];
      [Int 2; Str "butanol"; Str "butan-1-ol"; Str "CCCCO"; NaN] ].

(** The second record's structural identifier does not parse, the third
    record has none. *)
Definition broken_table : DataFrame :=
  read_table sample_columns
    [ [Int 1; Str "ethanol"; Str "ethanol"; Str "CCO"; Str "BBB+"];
      [Int 2; Str "butanol"; Str "butan-1-ol"; Str "C(C"; Str "BBB-"];
      [Int 3; Str "butanol"; Str "butan-1-ol"; NaN; Str "BBB-"] ].

(** The table the loader makes of [broken_table]. *)
Definition broken_loaded : DataFrame :=
  match loader broken_table with
  | Ok table => table
  | Raise _ => broken_table
  end.

(** The structural identifier column is absent. *)
Definition headless_table : DataFrame :=
  read_table ["compound_name"; "IUPAC_name"; "BBB+/BBB-"]
    [ [Str "ethanol"; Str "ethanol"; Str "BBB+"] ].

(** ** Cell 12: the two splits *)

(** The generator [RandomState(1)], as far as [train_test_split] uses it:
    [permutation n] is a shuffle of [0, ..., n-1].  Both calls of the cell
    pass [random_state=1], so both draw from a generator in the same state. *)
Class RandomState : Type := {
  permutation : nat -> list nat;
  permutation_shuffles : forall n, Permutation (permutation n) (seq 0 n)
}.

(** [a[ind]]: the rows of [a] at the positions [ind], in that order. *)
Definition take {A : Type} (a : list A) (ind : list nat) : list A :=
  flat_map (fun i => match nth_error a i with
                     | Some v => [v]
                     | None => []
                     end) ind.

(** [ceil(test_size * n_samples)].  The notebook passes 0.2 and 0.25; the
    floating-point product of 0.2 and a multiple of five rounds to the exact
    quotient and 0.25 is a binary fraction, so the ceiling of the rational
    product is the ceiling the library computes. *)
Definition n_test_of (test_size : Q) (n_samples : nat) : nat :=
  Z.to_nat (Qceiling (test_size * inject_Z (Z.of_nat n_samples))).

Section Splitter.
Context {rng : RandomState}.

(** [train_test_split(x, y, test_size=..., random_state=1)], with the
    defaults [train_size=None], [shuffle=True], [stratify=None]: the test
    set takes the first [n_test] positions of the shuffle, the training
    set the following [n_train = n_samples - n_test]; an empty training
    set is refused. *)
Definition train_test_split {A B : Type} (x : list A) (y : list B)
           (test_size : Q)
  : result (list A * list A * list B * list B) :=
  let n_samples := List.length x in
  if negb (List.length y =? n_samples) then
    Raise (ValueError "inconsistent numbers of samples")
  else
    let n_test := n_test_of test_size n_samples in
    let n_train := n_samples - n_test in
    if n_train =? 0 then
      Raise (ValueError "the resulting train set will be empty")
    else
      let p := permutation n_samples in
      let ind_test := firstn n_test p in
      let ind_train := firstn n_train (skipn n_test p) in
      Ok (take x ind_train, take x ind_test,
          take y ind_train, take y ind_test).

Record partitions (A B : Type) : Type := mkPartitions {
  x_train : list A; y_train : list B;
  x_valid : list A; y_valid : list B;
  x_test : list A;  y_test : list B
}.

Definition split {A B : Type} (x : list A) (y : list B)
  : result (partitions A B) :=
  r <- train_test_split x y (1 # 5) ;;
  let '(x_train, x_test, y_train, y_test) := r in
  r <- train_test_split x_train y_train (1 # 4) ;;
  let '(x_train, x_valid, y_train, y_valid) := r in
  Ok {| x_train := x_train; y_train := y_train;
        x_valid := x_valid; y_valid := y_valid;
        x_test := x_test; y_test := y_test |}.

End Splitter.

Arguments x_train {A B} _.
Arguments y_train {A B} _.
Arguments x_valid {A B} _.
Arguments y_valid {A B} _.
Arguments x_test {A B} _.
Arguments y_test {A B} _.

(** The positions of the records each partition receives, for [n] records:
    the test set is cut from the shuffle of [n], the validation set from the
    shuffle of what is left. *)
Section Positions.
Context {rng : RandomState}.

Definition test_positions (n : nat) : list nat :=
  firstn (n_test_of (1 # 5) n) (permutation n).

Definition rest_positions (n : nat) : list nat :=
  skipn (n_test_of (1 # 5) n) (permutation n).

Definition valid_positions (n : nat) : list nat :=
  let n_rest := n - n_test_of (1 # 5) n in
  take (rest_positions n) (firstn (n_test_of (1 # 4) n_rest) (permutation n_rest)).

Definition train_positions (n : nat) : list nat :=
  let n_rest := n - n_test_of (1 # 5) n in
  take (rest_positions n) (skipn (n_test_of (1 # 4) n_rest) (permutation n_rest)).

End Positions.

(** A generator for the examples: it shuffles by reversing. *)
Definition reversing : RandomState :=
  {| permutation := fun n => rev (seq 0 n);
     permutation_shuffles := fun n => Permutation_sym (Permutation_rev (seq 0 n)) |}.

(** ** Cells 14 to 20: the decision tree *)

(** A sample is its feature vector; a class is [true] for 1 (permeant) and
    [false] for 0. *)
Definition sample : Type := list Q.

Definition feature_of (f : nat) (x : sample) : Q := nth f x 0%Q.

Definition Qlt_bool (a b : Q) : bool := negb (Qle_bool b a).

Definition count_class (c : bool) (S : list (sample * bool)) : nat :=
  List.length (filter (fun s => Bool.eqb (snd s) c) S).

(** A fitted tree: a leaf stores the class counts of the training samples
    that reach it, an inner node sends a sample left when its feature is at
    most the threshold. *)
Inductive tree : Type :=
| Leaf (n0 n1 : nat)
| Node (feature : nat) (threshold : Q) (left right : tree).

(** The distinct values of a feature, in increasing order. *)
Fixpoint insert_value (v : Q) (l : list Q) : list Q :=
  match l with
  | [] => [v]
  | w :: l' =>
      if Qeq_bool v w then l
      else if Qle_bool v w then v :: l
      else w :: insert_value v l'
  end.

Definition distinct_sorted (l : list Q) : list Q :=
  fold_right insert_value [] l.

(** [FEATURE_THRESHOLD = 1e-7], a 32-bit float in the library:
    [14073749 * 2^-47]. *)
Definition FEATURE_THRESHOLD : Q := 14073749 # 140737488355328.

(** The thresholds tried for a feature.  The splitter walks through the
    sorted values and does not split between a value and the next one when
    [Xf[p + 1] <= Xf[p] + FEATURE_THRESHOLD]; otherwise it tries the midpoint
    of the two.  A constant feature has no threshold. *)
Fixpoint midpoints (l : list Q) : list Q :=
  match l with
  | a :: (b :: _) as rest =>
      if Qle_bool b (a + FEATURE_THRESHOLD) then midpoints rest
      else ((a + b) / 2)%Q :: midpoints rest
  | _ => []
  end.

Definition thresholds (S : list (sample * bool)) (f : nat) : list Q :=
  midpoints (distinct_sorted (map (fun s => feature_of f (fst s)) S)).

Definition goes_left (f : nat) (t : Q) (x : sample) : bool :=
  Qle_bool (feature_of f x) t.

Definition left_of (S : list (sample * bool)) (f : nat) (t : Q) :=
  filter (fun s => goes_left f t (fst s)) S.

Definition right_of (S : list (sample * bool)) (f : nat) (t : Q) :=
  filter (fun s => negb (goes_left f t (fst s))) S.

(** [criterion='entropy'].  For class counts [(n0, n1)] with [n = n0 + n1]
    and entropy [H] in bits, [2 ^ (n * H) = n^n / (n0^n0 * n1^n1)]: a
    rational.  The splitter maximises [- n_left * H_left - n_right * H_right];
    that is, it minimises the product of the two children's values below. *)
Definition self_power (k : nat) : positive :=
  Z.to_pos (Z.of_nat k ^ Z.of_nat k).

Definition perplexity (S : list (sample * bool)) : Q :=
  let n0 := count_class false S in
  let n1 := count_class true S in
  Z.pos (self_power (n0 + n1)) # (self_power n0 * self_power n1).

Definition split_cost (S : list (sample * bool)) (f : nat) (t : Q) : Q :=
  (perplexity (left_of S f t) * perplexity (right_of S f t))%Q.

(** The entropy criterion as the library computes it, over the reals: the
    entropy of a node, in bits, skipping the classes that do not occur, and
    the quantity the splitter maximises for a split. *)
Definition plogp (c n : nat) : R :=
  if c =? 0 then 0%R else (INR c / INR n * (ln (INR c / INR n) / ln 2))%R.

Definition entropy (S : list (sample * bool)) : R :=
  let n0 := count_class false S in
  let n1 := count_class true S in
  (- plogp n0 (n0 + n1) - plogp n1 (n0 + n1))%R.

Definition proxy_impurity_improvement
           (S : list (sample * bool)) (f : nat) (t : Q) : R :=
  (- INR (List.length (right_of S f t)) * entropy (right_of S f t)
   - INR (List.length (left_of S f t)) * entropy (left_of S f t))%R.

Definition xlnx (k : nat) : R := (INR k * ln (INR k))%R.

Record candidate : Type := mkCandidate {
  cand_feature : nat;
  cand_threshold : Q;
  cand_cost : Q
}.

(** All splits of a node, in the order the splitter evaluates them: feature
    after feature in the visiting order, thresholds increasing. *)
Definition candidates (S : list (sample * bool)) (visit : list nat)
  : list candidate :=
  flat_map (fun f =>
              map (fun t => mkCandidate f t (split_cost S f t)) (thresholds S f))
           visit.

(** A split replaces the best one so far only when strictly better. *)
Fixpoint scan (cands : list candidate) (best : option candidate)
  : option candidate :=
  match cands with
  | [] => best
  | c :: rest =>
      scan rest
           (match best with
            | None => Some c
            | Some b => if Qlt_bool (cand_cost c) (cand_cost b) then Some c
                        else Some b
            end)
  end.

Definition best_split (S : list (sample * bool)) (visit : list nat)
  : option candidate :=
  scan (candidates S visit) None.

(** The notebook constructs [DecisionTreeClassifier(criterion='entropy',
    max_depth=...)] without [random_state].  The splitter draws, at every
    node, the order in which it visits the features, here from NumPy's
    global generator: [visiting path] is the order drawn at the node reached
    from the root by [path] ([false] for left).  Each fit has its own. *)
Definition visiting : Type := list bool -> list nat.

(** A node is a leaf at the depth bound, when it is pure, or when no feature
    can split it. *)
Fixpoint build (order : visiting) (depth_left : nat) (path : list bool)
         (S : list (sample * bool)) : tree :=
  let n0 := count_class false S in
  let n1 := count_class true S in
  match depth_left with
  | O => Leaf n0 n1
  | Datatypes.S d =>
      if (n0 =? 0) || (n1 =? 0) then Leaf n0 n1
      else
        match best_split S (order path) with
        | None => Leaf n0 n1
        | Some c =>
            let f := cand_feature c in
            let t := cand_threshold c in
            Node f t
                 (build order d (path ++ [false]) (left_of S f t))
                 (build order d (path ++ [true]) (right_of S f t))
        end
  end.

(** [clf.fit(X, y)] *)
Definition fit (order : visiting) (max_depth : nat)
           (X : list sample) (y : list bool) : result tree :=
  if max_depth =? 0 then Raise (ValueError "max_depth must be at least 1")
  else if negb (List.length y =? List.length X) then
    Raise (ValueError "inconsistent numbers of samples")
  else if List.length X =? 0 then Raise (ValueError "0 samples")
  else Ok (build order max_depth [] (combine X y)).

(** [clf.predict]: the majority class of the leaf the sample reaches, class
    0 on a tie. *)
Fixpoint predict_one (t : tree) (x : sample) : bool :=
  match t with
  | Leaf n0 n1 => n0 <? n1
  | Node f th l r =>
      if goes_left f th x then predict_one l x else predict_one r x
  end.

Definition predict (t : tree) (X : list sample) : list bool :=
  map (predict_one t) X.

(** The number of samples of [S] the tree classifies as labelled. *)
Definition correct (t : tree) (S : list (sample * bool)) : nat :=
  List.length (filter (fun s => Bool.eqb (predict_one t (fst s)) (snd s)) S).

(** A Python float: a number or [nan]. *)
Inductive float : Type :=
| Num (q : Q)
| nan.

Definition ratio (num den : nat) : Q := Z.of_nat num # Pos.of_nat den.

(** [clf.score(X, y)]: the accuracy of [clf.predict(X)] against [y].  The
    prediction refuses an array without samples, the accuracy refuses labels
    and predictions of different lengths. *)
Definition score (t : tree) (X : list sample) (y : list bool) : result float :=
  if List.length X =? 0 then Raise (ValueError "0 samples")
  else if negb (List.length y =? List.length X) then
    Raise (ValueError "inconsistent numbers of samples")
  else Ok (Num (ratio (correct t (combine X y)) (List.length X))).

(** Cell 18: one fit per depth 1, ..., 24, each scored on the validation
    set. *)
Definition sweep (orders : nat -> visiting)
           (X_train : list sample) (y_train : list bool)
           (X_valid : list sample) (y_valid : list bool)
  : result (list float) :=
  fold_left
    (fun score_list maxd =>
       score_list <- score_list ;;
       clf <- fit (orders maxd) maxd X_train y_train ;;
       s <- score clf X_valid y_valid ;;
       Ok (score_list ++ [s]))
    (seq 1 24) (Ok []).

(** ** Cells 22 to 24: the evaluator *)

Definition count_pair (t p : bool) (y_true y_pred : list bool) : nat :=
  List.length
    (filter (fun tp => Bool.eqb (fst tp) t && Bool.eqb (snd tp) p)
            (combine y_true y_pred)).

(** The labels that occur in either list, sorted. *)
Definition unique_labels (y_true y_pred : list bool) : list bool :=
  filter (fun l => existsb (Bool.eqb l) (y_true ++ y_pred)) [false; true].

(** [confusion_matrix(y_true, y_pred)]: no [labels] argument is passed, the
    matrix has one row and one column per label that occurs.  Lists of
    different lengths and empty lists are refused. *)
Definition confusion_matrix (y_true y_pred : list bool)
  : result (list (list nat)) :=
  if negb (List.length y_true =? List.length y_pred) then
    Raise (ValueError "inconsistent numbers of samples")
  else if List.length y_true =? 0 then Raise (ValueError "0 samples")
  else
    let labels := unique_labels y_true y_pred in
    Ok (map (fun t => map (fun p => count_pair t p y_true y_pred) labels)
            labels).

Definition ravel (cm : list (list nat)) : list nat := List.concat cm.

Inductive warning : Type :=
| UndefinedMetricWarning (metric : string).

(** The [zero_division] argument of the metrics; the notebook leaves the
    default, ["warn"]. *)
Inductive zero_division : Type :=
| warn
| replace_by (v : float).

Definition prf_divide (metric : string) (num den : nat) (zd : zero_division)
  : float * list warning :=
  if den =? 0 then
    match zd with
    | warn => (Num 0, [UndefinedMetricWarning metric])
    | replace_by v => (v, [])
    end
  else (Num (ratio num den), []).

(** [precision_score] and [recall_score] with [pos_label=1],
    [average='binary']. *)
Definition precision_score (zd : zero_division) (y_true y_pred : list bool)
  : float * list warning :=
  prf_divide "Precision"
             (count_pair true true y_true y_pred)
             (count_pair true true y_true y_pred
              + count_pair false true y_true y_pred) zd.

Definition recall_score (zd : zero_division) (y_true y_pred : list bool)
  : float * list warning :=
  prf_divide "Recall"
             (count_pair true true y_true y_pred)
             (count_pair true true y_true y_pred
              + count_pair true false y_true y_pred) zd.

Record report : Type := mkReport {
  tn : nat; fp : nat; fn : nat; tp : nat;
  precision : float;
  recall : float;
  warnings : list warning
}.

(** Cells 22 and 24: the matrix, its four cells, precision and recall. *)
Definition evaluator (y_true y_pred : list bool) : result report :=
  cm <- confusion_matrix y_true y_pred ;;
  match ravel cm with
  | [tn; fp; fn; tp] =>
      let (p, wp) := precision_score warn y_true y_pred in
      let (r, wr) := recall_score warn y_true y_pred in
      Ok {| tn := tn; fp := fp; fn := fn; tp := tp;
            precision := p; recall := r; warnings := wp ++ wr |}
  | _ => Raise (ValueError "not enough values to unpack (expected 4)")
  end.

(** ** The notebook, cell after cell *)

(** What scikit-learn makes of the arrays [x] and [y]: numbers, and classes
    0 and 1; a missing value is refused. *)
Definition as_float (v : value) : result Q :=
  match v with
  | Float q => Ok q
  | Int z => Ok (inject_Z z)
  | _ => Raise (ValueError "could not convert to float, or NaN")
  end.

Fixpoint traverse {A B : Type} (f : A -> result B) (l : list A)
  : result (list B) :=
  match l with
  | [] => Ok []
  | a :: l' =>
      b <- f a ;;
      bs <- traverse f l' ;;
      Ok (b :: bs)
  end.

Definition as_sample (row : list value) : result sample :=
  traverse as_float row.

Definition as_class (row : list value) : result bool :=
  match row with
  | [Int 0%Z] => Ok false
  | [Int 1%Z] => Ok true
  | _ => Raise (ValueError "unknown label type")
  end.

(** The visiting orders drawn by the fits of the run: cell 14, the sweep of
    cell 18 (one fit per depth) and cell 20. *)
Record draws : Type := mkDraws {
  first_fit : visiting;
  sweep_fits : nat -> visiting;
  final_fit : visiting
}.

(** What the run prints (the plots and the exported picture of cell 16 are
    left out). *)
Record output : Type := mkOutput {
  valid_score_depth_3 : float;
  score_list : list float;
  test_score_depth_20 : float;
  prediction : list bool;
  metrics : report
}.

Definition notebook {rdkit : RDKit} {rng : RandomState}
           (d : draws) (tmp : DataFrame) : result output :=
  xy <- x_and_y tmp ;;
  x <- traverse as_sample (fst xy) ;;
  y <- traverse as_class (snd xy) ;;
  parts <- split x y ;;
  clf <- fit (first_fit d) 3 (x_train parts) (y_train parts) ;;
  s3 <- score clf (x_valid parts) (y_valid parts) ;;
  scores <- sweep (sweep_fits d) (x_train parts) (y_train parts)
                  (x_valid parts) (y_valid parts) ;;
  clf <- fit (final_fit d) 20 (x_train parts) (y_train parts) ;;
  let y_pred := predict clf (x_test parts) in
  s20 <- score clf (x_test parts) (y_test parts) ;;
  rep <- evaluator (y_test parts) y_pred ;;
  Ok {| valid_score_depth_3 := s3;
        score_list := scores;
        test_score_depth_20 := s20;
        prediction := y_pred;
        metrics := rep |}.

(** Ten records, ethanol (permeant) and butanol (not) in turn. *)
Definition ten_compounds : DataFrame :=
  read_table sample_columns
    (map (fun i =>
            if Nat.even i
            then [Int (Z.of_nat i); Str "ethanol"; Str "ethanol"; Str "CCO";
                  Str "BBB+"]
            else [Int (Z.of_nat i); Str "butanol"; Str "butan-1-ol";
                  Str "CCCCO"; Str "BBB-"])
         (seq 0 10)).

Definition in_feature_order : draws :=
  {| first_fit := fun _ => [0; 1; 2; 3; 4];
     sweep_fits := fun _ _ => [0; 1; 2; 3; 4];
     final_fit := fun _ => [0; 1; 2; 3; 4] |}.

(** ** Sample training sets *)

#[local] Open Scope Q_scope.

(** Two compounds whose first two descriptors both separate the classes,
    and a query on which the two descriptors disagree. *)
Definition two_compounds : list sample := [[0; 0; 0; 0; 0]; [1; 1; 0; 0; 0]].
Definition two_classes : list bool := [false; true].
Definition query : sample := [0; 1; 0; 0; 0].

(** Two draws of the visiting order, the same at every node. *)
Definition first_feature_first : visiting := fun _ => [0; 1; 2; 3; 4]%nat.
Definition second_feature_first : visiting := fun _ => [1; 0; 2; 3; 4]%nat.
Definition third_feature_first : visiting := fun _ => [2; 3; 0; 1; 4]%nat.

(** Twenty-four samples over four binary features [a], [c], [b], [e] (the
    fifth is constant).  The class is [a xor c]; [e] agrees with the class
    on two thirds of the samples with [b = 0] and disagrees on two thirds of
    those with [b = 1]. *)
Definition copies (k : nat) (a c b e : Q) : list (sample * bool) :=
  repeat ([a; c; b; e; 0], negb (Qeq_bool a c)) k.

Definition half (b e_with e_against : Q) : list (sample * bool) :=
  (copies 2 0 0 b e_with ++ copies 2 1 1 b e_with ++
   copies 1 0 1 b e_with ++ copies 1 1 0 b e_with ++
   copies 2 0 1 b e_against ++ copies 2 1 0 b e_against ++
   copies 1 0 0 b e_against ++ copies 1 1 1 b e_against)%list.

Definition twenty_four : list (sample * bool) := (half 0 0 1 ++ half 1 1 0)%list.

#[local] Close Scope Q_scope.

(** The table cells 5 and 7 make of [sample_table]. *)
Definition sample_augmented : DataFrame :=
  match feature_table (rdkit := two_alcohols) sample_table with
  | Ok table => table
  | Raise _ => sample_table
  end.

(** The state in which the descriptor loop leaves [broken_loaded]. *)
Definition broken_state : DataFrame :=
  fst (descriptor_loop (rdkit := two_alcohols) broken_loaded).

(** Whether a categorical value is the permeant marker. *)
Definition is_permeant (v : value) : bool := eq_str v "BBB+".

(** ** Measures of a fitted tree *)

(** The number of splits on the longest branch. *)
Fixpoint depth (t : tree) : nat :=
  match t with
  | Leaf _ _ => 0
  | Node _ _ l r => Datatypes.S (Nat.max (depth l) (depth r))
  end.

(** The number of training samples counted in the leaves. *)
Fixpoint leaf_total (t : tree) : nat :=
  match t with
  | Leaf n0 n1 => n0 + n1
  | Node _ _ l r => leaf_total l + leaf_total r
  end.

(** The number of labels of a class. *)
Definition count_label (c : bool) (y : list bool) : nat :=
  List.length (filter (Bool.eqb c) y).

(** A training set is separable when two samples of different classes
    differ in a feature that every node visits. *)
Definition separable (order : visiting) (S : list (sample * bool)) : Prop :=
  forall path s1 s2,
    In s1 S -> In s2 S -> snd s1 <> snd s2 ->
    exists f, In f (order path) /\
              ~ (feature_of f (fst s1) == feature_of f (fst s2))%Q.

(** A node is pure when one of the two classes does not occur in it. *)
Definition pure (S : list (sample * bool)) : bool :=
  (count_class false S =? 0) || (count_class true S =? 0).

(** A split separates the classes when both children are pure. *)
Definition separates (S : list (sample * bool)) (c : candidate) : bool :=
  pure (left_of S (cand_feature c) (cand_threshold c)) &&
  pure (right_of S (cand_feature c) (cand_threshold c)).

(** ** Samples as the library stores them *)

(** A number that a 32-bit float holds exactly: [m * 2^e] with
    [|m| < 2^24] and [-149 <= e <= 104]. *)
Definition float32_exact (q : Q) : Prop :=
  exists m e : Z,
    (Z.abs m < 2 ^ 24)%Z /\ (-149 <= e <= 104)%Z /\
    (q == inject_Z m * 2 ^ e)%Q.

(** scikit-learn converts the samples to 32-bit floats before it fits or
    predicts, and the splitter adds [FEATURE_THRESHOLD] to a value in 32-bit
    arithmetic, rounding the sum to a nearest 32-bit float.  Neither matters
    for samples that are well spaced: every feature value is a 32-bit
    float, and two values of a feature are equal or more than twice
    [FEATURE_THRESHOLD] apart (the larger value is then further from the sum
    than the smaller one, so the rounded sum stays below it). *)
Definition well_spaced (S : list (sample * bool)) : Prop :=
  (forall s, In s S -> Forall float32_exact (fst s)) /\
  (forall f s1 s2, In s1 S -> In s2 S ->
     let a := feature_of f (fst s1) in
     let b := feature_of f (fst s2) in
     (a == b)%Q \/ (a + 2 * FEATURE_THRESHOLD < b)%Q \/
     (b + 2 * FEATURE_THRESHOLD < a)%Q).

(** An array of 32-bit floats: [n_samples] rows of [n_features] numbers
    each. *)
Definition float32_array (X : list sample) (n_samples n_features : nat)
  : Prop :=
  List.length X = n_samples /\
  Forall (fun x => List.length x = n_features /\ Forall float32_exact x) X.


(** * Properties *)

(** ** The loader *)

Lemma loader_after_filter (tmp : DataFrame) :
  has_required tmp = true ->
  loader tmp =
    (let t0 := reset_index
                 {| columns := required_columns;
                    index := labelled tmp;
                    cell := fun i c =>
                      if existsb (String.eqb c) required_columns
                      then cell tmp i c else NaN |} in
     t1 <- loc_setitem t0 all_rows "BBB_class" (Int 0) ;;
     t2 <- loc_setitem t1 (fun i => eq_str (cell t1 i "BBB+/BBB-") "BBB+")
                       "BBB_class" (Int 1) ;;
     Ok t2).
Proof.
  unfold has_required, loader, loc_columns, required_columns; simpl.
  intros H.
  repeat (apply andb_prop in H; destruct H as [?H H]).
  repeat match goal with
         | E : has_column tmp _ = true |- _ => rewrite E; clear E
         end.
  reflexivity.
Qed.

Lemma loader_columns_present (tmp : DataFrame) :
  has_required tmp = true ->
  labelled tmp <> [] ->
  loader tmp =
    Ok (let t0 := reset_index
                    {| columns := required_columns;
                       index := labelled tmp;
                       cell := fun i c =>
                         if existsb (String.eqb c) required_columns
                         then cell tmp i c else NaN |} in
        let t1 := loc_set t0 all_rows "BBB_class" (Int 0) in
        loc_set t1 (fun i => eq_str (cell t1 i "BBB+/BBB-") "BBB+")
                "BBB_class" (Int 1)).
Proof.
  intros Hreq Hrows. rewrite (loader_after_filter tmp Hreq).
  destruct (labelled tmp) as [|i rest]; [contradiction|].
  reflexivity.
Qed.

(** No row is left after the filter: the first assignment to [BBB_class]
    raises. *)
Lemma loader_no_record (tmp : DataFrame) :
  has_required tmp = true ->
  labelled tmp = [] ->
  loader tmp =
    Raise (ValueError "cannot set a frame with no defined index and a scalar").
Proof.
  intros Hreq Hrows. rewrite (loader_after_filter tmp Hreq), Hrows.
  reflexivity.
Qed.

Lemma loader_column_absent (tmp : DataFrame) :
  has_required tmp = false ->
  loader tmp =
    Raise (KeyError (filter (fun c => negb (has_column tmp c)) required_columns)).
Proof.
  unfold has_required, loader, loc_columns, required_columns; simpl.
  destruct (has_column tmp "compound_name"), (has_column tmp "IUPAC_name"),
    (has_column tmp "SMILES"), (has_column tmp "BBB+/BBB-");
    simpl; intros H; try discriminate H; reflexivity.
Qed.

Example loader_without_smiles :
  loader headless_table = Raise (KeyError ["SMILES"]).
Proof. reflexivity. Qed.

(** The outcome of the loader, piece by piece. *)
Lemma loader_ok (tmp table : DataFrame) :
  loader tmp = Ok table -> has_required tmp = true /\ labelled tmp <> [].
Proof.
  intros H.
  destruct (has_required tmp) eqn:Hreq.
  - split; [reflexivity|]. intros Hrows.
    rewrite (loader_no_record tmp Hreq Hrows) in H. discriminate H.
  - rewrite (loader_column_absent tmp Hreq) in H. discriminate H.
Qed.

Lemma loader_inv (tmp table : DataFrame) :
  loader tmp = Ok table ->
  table =
    (let t0 := reset_index
                 {| columns := required_columns;
                    index := labelled tmp;
                    cell := fun i c =>
                      if existsb (String.eqb c) required_columns
                      then cell tmp i c else NaN |} in
     let t1 := loc_set t0 all_rows "BBB_class" (Int 0) in
     loc_set t1 (fun i => eq_str (cell t1 i "BBB+/BBB-") "BBB+")
             "BBB_class" (Int 1)).
Proof.
  intros H.
  destruct (loader_ok tmp table H) as [Hreq Hrows].
  rewrite (loader_columns_present tmp Hreq Hrows) in H.
  injection H as <-. reflexivity.
Qed.

Lemma loader_shape (tmp table : DataFrame) :
  loader tmp = Ok table ->
  columns table = required_columns ++ ["BBB_class"] /\
  index table = seq 0 (List.length (labelled tmp)).
Proof.
  intros H. rewrite (loader_inv tmp table H). split; reflexivity.
Qed.

Lemma loader_cells (tmp table : DataFrame) (k : nat) (c : string) :
  loader tmp = Ok table ->
  k < List.length (labelled tmp) ->
  In c required_columns ->
  cell table k c = cell tmp (nth k (labelled tmp) 0) c.
Proof.
  intros H Hk Hc. rewrite (loader_inv tmp table H).
  apply Nat.ltb_lt in Hk. simpl in Hc.
  destruct Hc as [<-|[<-|[<-|[<-|[]]]]]; simpl; rewrite Hk; reflexivity.
Qed.

(** C3: the loader keeps exactly the rows whose permeability value is
    present, in their order, relabels them 0, 1, 2, ... and sets [BBB_class]
    to 1 when the value is ["BBB+"] and to 0 for every other value. *)
Theorem loader_rows_and_class (tmp table : DataFrame) :
  loader tmp = Ok table ->
  (forall i, In i (labelled tmp) <->
             In i (index tmp) /\ cell tmp i "BBB+/BBB-" <> NaN) /\
  columns table = required_columns ++ ["BBB_class"] /\
  index table = seq 0 (List.length (labelled tmp)) /\
  forall k, k < List.length (labelled tmp) ->
    let i := nth k (labelled tmp) 0 in
    (forall c, In c required_columns -> cell table k c = cell tmp i c) /\
    cell table k "BBB_class" = class_of (cell tmp i "BBB+/BBB-") /\
    (cell table k "BBB_class" = Int 1 <-> cell tmp i "BBB+/BBB-" = Str "BBB+").
Proof.
  intros H.
  split.
  { intros i. unfold labelled. rewrite filter_In.
    destruct (cell tmp i "BBB+/BBB-"); simpl; intuition congruence. }
  split; [apply (loader_shape tmp table H)|].
  split; [apply (loader_shape tmp table H)|].
  intros k Hk i.
  assert (Hclass : cell table k "BBB_class" = class_of (cell tmp i "BBB+/BBB-")).
  { rewrite (loader_inv tmp table H).
    apply Nat.ltb_lt in Hk. simpl. rewrite Hk. reflexivity. }
  split; [|split].
  - intros c Hc. apply loader_cells; assumption.
  - exact Hclass.
  - rewrite Hclass. unfold class_of, eq_str.
    destruct (cell tmp i "BBB+/BBB-") as [s| | |]; try (split; discriminate).
    destruct (String.eqb_spec s "BBB+") as [->|Hne].
    + split; reflexivity.
    + split; [discriminate|]. intros [= E]. contradiction.
Qed.

Lemma loader_rows_and_class_witness :
  exists table,
    loader sample_table = Ok table /\
    index table = [0; 1] /\
    cell table 0 "BBB_class" = Int 1 /\
    cell table 1 "BBB_class" = Int 0.
Proof.
  destruct (loader sample_table) as [table|e] eqn:E;
    [|vm_compute in E; discriminate E].
  destruct (loader_rows_and_class sample_table table E)
    as (_ & _ & Hindex & Hrows).
  assert (H0 : 0 < List.length (labelled sample_table)) by (vm_compute; lia).
  assert (H1 : 1 < List.length (labelled sample_table)) by (vm_compute; lia).
  destruct (Hrows 0 H0) as (_ & Hc0 & _).
  destruct (Hrows 1 H1) as (_ & Hc1 & _).
  exists table. split; [reflexivity|]. split; [exact Hindex|].
  split; [exact Hc0|exact Hc1].
Defined.


(** ** Assignments into a table *)

Lemma has_column_loc_set (df : DataFrame) rows c v d :
  has_column (loc_set df rows c v) d = has_column df d || String.eqb d c.
Proof.
  unfold has_column at 1. unfold loc_set; simpl.
  destruct (has_column df c) eqn:E.
  - fold (has_column df d).
    destruct (String.eqb_spec d c) as [->|_].
    + rewrite E. reflexivity.
    + rewrite orb_false_r. reflexivity.
  - rewrite existsb_app. simpl. rewrite orb_false_r. reflexivity.
Qed.

Lemma cell_loc_set (df : DataFrame) rows c v i d :
  tidy df ->
  cell (loc_set df rows c v) i d =
    if String.eqb d c && rows i then v else cell df i d.
Proof.
  intros Htidy. unfold loc_set; simpl.
  destruct (String.eqb_spec d c) as [->|_]; simpl; [|reflexivity].
  destruct (rows i); [reflexivity|].
  destruct (has_column df c) eqn:E; [reflexivity|].
  symmetry. apply Htidy, E.
Qed.

Lemma tidy_loc_set (df : DataFrame) rows c v :
  tidy df -> tidy (loc_set df rows c v).
Proof.
  intros Htidy i d. rewrite has_column_loc_set, (cell_loc_set _ _ _ _ _ _ Htidy).
  intros H. apply orb_false_elim in H. destruct H as [Hd Hdc].
  rewrite Hdc. simpl. apply Htidy, Hd.
Qed.

Lemma index_loc_set (df : DataFrame) rows c v :
  index (loc_set df rows c v) = index df.
Proof. reflexivity. Qed.

Lemma tidy_loader (tmp table : DataFrame) :
  loader tmp = Ok table -> tidy table.
Proof.
  intros H.
  rewrite (loader_inv tmp table H).
  cbv zeta. do 2 apply tidy_loc_set.
  intros i c. unfold has_column, reset_index; simpl.
  intros ->. destruct (i <? _); reflexivity.
Qed.

(** ** The descriptor loop *)

Section ExtractorFacts.
Context {rdkit : RDKit}.

Lemma descriptor_row_eq (table : DataFrame) (i : nat) :
  descriptor_row i table =
    match parsed table i with
    | Some m => (write_row i m table, Ok tt)
    | None => (table, Raise ArgumentError)
    end.
Proof.
  unfold descriptor_row, seq_stmt, read_cell, eval, parsed, mol_from_smiles.
  destruct (cell table i "SMILES") as [s| | |]; try reflexivity.
  destruct (MolFromSmiles s); reflexivity.
Qed.

Lemma tidy_write_row (table : DataFrame) i m :
  tidy table -> tidy (write_row i m table).
Proof.
  intros H. unfold write_row, descriptor_columns; cbn [fold_left].
  repeat apply tidy_loc_set. exact H.
Qed.

Lemma index_write_row (table : DataFrame) i m :
  index (write_row i m table) = index table.
Proof. reflexivity. Qed.

Lemma has_column_write_row (table : DataFrame) i m c :
  has_column (write_row i m table) c = has_column table c || is_descriptor c.
Proof.
  unfold write_row, is_descriptor, descriptor_columns; cbn [fold_left existsb].
  rewrite !has_column_loc_set.
  destruct (has_column table c), (String.eqb c "MolWt"), (String.eqb c "TPSA"),
    (String.eqb c "nRotB"), (String.eqb c "HBD"), (String.eqb c "HBA"),
    (String.eqb c "LogP"); reflexivity.
Qed.

(** Case analysis on a column name against a literal: in the first case the
    name is replaced by the literal and the goal closed by computation. *)
Ltac column_is c name j i :=
  let E := fresh "E" in
  destruct (String.eqb c name) eqn:E;
  [apply String.eqb_eq in E; subst c; simpl; destruct (Nat.eqb j i); reflexivity|].

Lemma cell_write_row (table : DataFrame) i m j c :
  tidy table ->
  cell (write_row i m table) j c =
    if is_descriptor c && Nat.eqb j i then descriptor_value m c
    else cell table j c.
Proof.
  intros H.
  unfold write_row, descriptor_columns; cbn [fold_left].
  repeat (rewrite cell_loc_set; [|repeat apply tidy_loc_set; exact H]).
  unfold is_descriptor, descriptor_columns, one_row, descriptor_value;
    simpl existsb.
  column_is c "MolWt" j i. column_is c "TPSA" j i. column_is c "nRotB" j i.
  column_is c "HBD" j i. column_is c "HBA" j i. column_is c "LogP" j i.
  reflexivity.
Qed.

Lemma parsed_ext (t t' : DataFrame) :
  (forall j c, is_descriptor c = false -> cell t' j c = cell t j c) ->
  forall j, parsed t' j = parsed t j.
Proof.
  intros H j. unfold parsed. rewrite H; reflexivity.
Qed.

Lemma for_each_descriptor_row (labels : list nat) :
  forall t, tidy t ->
  exists t' r,
    for_each labels descriptor_row t = (t', r) /\
    tidy t' /\ index t' = index t /\
    (forall j c, is_descriptor c = false -> cell t' j c = cell t j c) /\
    (forall c, has_column t c = true -> has_column t' c = true) /\
    loop_post t labels t' r.
Proof.
  induction labels as [|i rest IH]; intros t Ht.
  - exists t, (Ok tt). simpl. repeat split; auto; congruence.
  - simpl. unfold seq_stmt. rewrite descriptor_row_eq.
    destruct (parsed t i) as [m|] eqn:Hm.
    + destruct (IH (write_row i m t) (tidy_write_row t i m Ht))
        as (t' & r & Hrun & Ht' & Hidx & Hframe & Hcols & Hpost).
      assert (Hframe1 : forall j c, is_descriptor c = false ->
                cell (write_row i m t) j c = cell t j c).
      { intros j c Hc. rewrite cell_write_row, Hc by exact Ht. reflexivity. }
      pose proof (parsed_ext _ _ Hframe1) as Hparsed.
      assert (Hwritten : forall done j c, is_descriptor c = true ->
                written (write_row i m t) done j c = written t (i :: done) j c).
      { intros done j c Hc. unfold written, mem. rewrite Hparsed.
        cbn [existsb].
        destruct (Nat.eqb_spec j i) as [->|Hji]; cbn [orb].
        - rewrite Hm. destruct (existsb (Nat.eqb i) done); [reflexivity|].
          rewrite cell_write_row, Hc, Nat.eqb_refl by exact Ht. reflexivity.
        - destruct (existsb (Nat.eqb j) done); [reflexivity|].
          rewrite cell_write_row, Hc by exact Ht.
          apply Nat.eqb_neq in Hji. rewrite Hji. reflexivity. }
      exists t', r. rewrite Hrun.
      split; [reflexivity|]. split; [exact Ht'|].
      split; [rewrite Hidx; reflexivity|].
      split; [intros j c Hc; rewrite Hframe, Hframe1 by exact Hc; reflexivity|].
      split.
      { intros c Hc. apply Hcols. rewrite has_column_write_row, Hc. reflexivity. }
      destruct r as [u|e]; simpl in *.
      * destruct Hpost as (Hall & Hcells & _).
        split.
        { constructor; [congruence|].
          eapply Forall_impl; [|exact Hall].
          intros j Hj. rewrite <- Hparsed. exact Hj. }
        split.
        { intros j c Hc. rewrite Hcells, Hwritten by exact Hc. reflexivity. }
        intros _ c Hc. apply Hcols.
        rewrite has_column_write_row, Hc. apply orb_true_r.
      * destruct Hpost as (-> & before & k & after & -> & Hall & Hk & Hcells).
        split; [reflexivity|].
        exists (i :: before), k, after.
        split; [reflexivity|].
        split.
        { constructor; [congruence|].
          eapply Forall_impl; [|exact Hall].
          intros j Hj. rewrite <- Hparsed. exact Hj. }
        split; [rewrite <- Hparsed; exact Hk|].
        intros j c Hc. rewrite Hcells, Hwritten by exact Hc. reflexivity.
    + exists t, (Raise ArgumentError).
      split; [reflexivity|]. repeat split; auto.
      exists [], i, rest. repeat split; auto.
Qed.

End ExtractorFacts.

Example sample_features :
  x_and_y (rdkit := two_alcohols) sample_table =
    Ok ([selected_descriptors (rdkit := two_alcohols) ethanol;
         selected_descriptors (rdkit := two_alcohols) butanol],
        [[Int 1]; [Int 0]]).
Proof. vm_compute. reflexivity. Qed.

(** ** From the loader to the feature vectors *)

Lemma map_nth_seq {A : Type} (l : list A) (d : A) :
  map (fun k => nth k l d) (seq 0 (List.length l)) = l.
Proof.
  apply nth_ext with (d := d) (d' := d).
  - rewrite length_map, length_seq. reflexivity.
  - intros n Hn. rewrite length_map, length_seq in Hn.
    rewrite (nth_indep _ d (nth 0 l d)) by (rewrite length_map, length_seq; exact Hn).
    rewrite (map_nth (fun k => nth k l d) (seq 0 (List.length l)) 0 n).
    rewrite seq_nth by exact Hn. reflexivity.
Qed.

Lemma Forall2_map_both {A B C : Type} (P : B -> C -> Prop)
      (f : A -> B) (g : A -> C) (l : list A) :
  (forall a, In a l -> P (f a) (g a)) -> Forall2 P (map f l) (map g l).
Proof.
  induction l as [|a l IH]; intros H; simpl; constructor.
  - apply H. left. reflexivity.
  - apply IH. intros b Hb. apply H. right. exact Hb.
Qed.

Lemma loader_lacks_descriptors (tmp table : DataFrame) :
  loader tmp = Ok table ->
  forall k c, is_descriptor c = true ->
    has_column table c = false /\ cell table k c = NaN.
Proof.
  intros H k c Hc.
  assert (Hcol : has_column table c = false).
  { destruct (loader_shape tmp table H) as (Hcols & _).
    unfold has_column. rewrite Hcols.
    unfold is_descriptor, descriptor_columns in Hc. simpl in Hc.
    repeat (apply orb_prop in Hc; destruct Hc as [Hc|Hc];
            [apply String.eqb_eq in Hc; subst c; reflexivity|]).
    discriminate Hc. }
  split; [exact Hcol|]. apply (tidy_loader tmp table H), Hcol.
Qed.

Lemma features_present (t : DataFrame) (x : list (list value)) :
  features t = Ok x ->
  x = map (fun k => map (cell t k) descriptors_selected) (index t).
Proof.
  unfold features, values, loc_columns, descriptors_selected. simpl.
  destruct (has_column t "MolWt"), (has_column t "TPSA"), (has_column t "HBD"),
    (has_column t "HBA"), (has_column t "LogP"); simpl; intros H;
    try discriminate H.
  injection H as <-. reflexivity.
Qed.

Lemma features_absent (t : DataFrame) :
  (forall c, is_descriptor c = true -> has_column t c = false) ->
  features t = Raise (KeyError descriptors_selected).
Proof.
  intros H. unfold features, values, loc_columns, descriptors_selected. simpl.
  rewrite !H by reflexivity. reflexivity.
Qed.

Section Pipeline.
Context {rdkit : RDKit}.

Lemma feature_table_inv (tmp t' : DataFrame) :
  feature_table tmp = Ok t' ->
  exists table,
    loader tmp = Ok table /\ index t' = index table /\
    Forall (fun k => parsed table k <> None) (index table) /\
    forall k c, In k (index table) -> is_descriptor c = true ->
      forall m, parsed table k = Some m -> cell t' k c = descriptor_value m c.
Proof.
  unfold feature_table, descriptor_loop.
  destruct (loader tmp) as [table|e] eqn:Hload; simpl; [|discriminate].
  destruct (for_each_descriptor_row (index table) table (tidy_loader _ _ Hload))
    as (t1 & r & Hrun & _ & Hidx & _ & _ & Hpost).
  rewrite Hrun. destruct r as [u|e]; [|discriminate].
  intros [= <-]. exists table.
  destruct Hpost as (Hall & Hcells & _).
  repeat split; auto.
  intros k c Hk Hc m Hm. rewrite Hcells by exact Hc.
  unfold written.
  assert (Hmem : mem k (index table) = true).
  { apply existsb_exists. exists k. split; [exact Hk|apply Nat.eqb_refl]. }
  rewrite Hmem, Hm. reflexivity.
Qed.

Lemma parsed_loader (tmp table : DataFrame) (k : nat) :
  loader tmp = Ok table -> k < List.length (labelled tmp) ->
  parsed table k = parsed tmp (nth k (labelled tmp) 0).
Proof.
  intros H Hk.
  unfold parsed. rewrite (loader_cells tmp table k "SMILES" H Hk); [reflexivity|].
  simpl. auto.
Qed.

End Pipeline.

(** ** The feature vector *)

Section FeatureVector.
Context {rdkit : RDKit}.

(** C1, as amended: the feature vector handed to the classifier is the
    ordered tuple of the five selected descriptors (molecular weight,
    polar surface area, H-bond donors, H-bond acceptors, logP), one vector
    per retained compound, in the order of the table. *)
Theorem features_are_selected_descriptors
        (tmp : DataFrame) (x y : list (list value)) :
  x_and_y tmp = Ok (x, y) ->
  Forall2 (fun i v => exists m, parsed tmp i = Some m /\
                                v = selected_descriptors m /\
                                List.length v = 5 /\
                                as_sample v =
                                  Ok [ExactMolWt m; CalcTPSA m;
                                      inject_Z (NumHDonors m);
                                      inject_Z (NumHAcceptors m); MolLogP m])
          (labelled tmp) x.
Proof.
  unfold x_and_y.
  destruct (feature_table tmp) as [t'|e] eqn:Hft; simpl; [|discriminate].
  destruct (features t') as [x'|e] eqn:Hx; simpl; [|discriminate].
  destruct (target t') as [y'|e]; simpl; [|discriminate].
  intros [= <- _].
  apply features_present in Hx. subst x'.
  destruct (feature_table_inv tmp t' Hft)
    as (table & Hload & Hidx & Hall & Hcells).
  destruct (loader_shape tmp table Hload) as (_ & Hseq).
  rewrite Hidx, Hseq.
  rewrite <- (map_nth_seq (labelled tmp) 0) at 1.
  apply Forall2_map_both. intros k Hk.
  assert (Hin : In k (index table)) by (rewrite Hseq; exact Hk).
  apply in_seq in Hk. destruct Hk as [_ Hk]. simpl in Hk.
  rewrite Forall_forall in Hall. specialize (Hall k Hin).
  destruct (parsed table k) as [m|] eqn:Hm; [|congruence].
  exists m. split; [rewrite <- (parsed_loader tmp table k Hload Hk); exact Hm|].
  assert (Hv : map (cell t' k) descriptors_selected = selected_descriptors m).
  { unfold selected_descriptors. apply map_ext_in. intros c Hc.
    apply Hcells; [exact Hin| |exact Hm].
    simpl in Hc. destruct Hc as [<-|[<-|[<-|[<-|[<-|[]]]]]]; reflexivity. }
  rewrite Hv. repeat split; reflexivity.
Qed.

End FeatureVector.

Lemma features_are_selected_descriptors_witness :
  Forall2 (fun i v => exists m, parsed (rdkit := two_alcohols) sample_table i = Some m /\
                                v = selected_descriptors m /\
                                List.length v = 5 /\
                                as_sample v =
                                  Ok [ExactMolWt m; CalcTPSA m;
                                      inject_Z (NumHDonors m);
                                      inject_Z (NumHAcceptors m); MolLogP m])
          (labelled sample_table)
          [selected_descriptors (rdkit := two_alcohols) ethanol;
           selected_descriptors (rdkit := two_alcohols) butanol].
Proof.
  apply (features_are_selected_descriptors
           (rdkit := two_alcohols) sample_table _ [[Int 1]; [Int 0]]).
  vm_compute. reflexivity.
Defined.

(** C1, as stated, fails: on the sample table the vectors have five
    coordinates, and the rotatable-bond count is not among them. *)
Lemma features_omit_rotatable_bonds :
  exists x y,
    x_and_y (rdkit := two_alcohols) sample_table = Ok (x, y) /\
    x <> [six_descriptors (rdkit := two_alcohols) ethanol;
          six_descriptors (rdkit := two_alcohols) butanol] /\
    Forall (fun v => List.length v = 5) x /\
    ~ In "nRotB" descriptors_selected.
Proof.
  exists [selected_descriptors (rdkit := two_alcohols) ethanol;
          selected_descriptors (rdkit := two_alcohols) butanol],
         [[Int 1]; [Int 0]].
  split; [vm_compute; reflexivity|].
  split; [vm_compute; discriminate|].
  split; [repeat constructor|].
  simpl. intros H. repeat (destruct H as [H|H]; [discriminate H|]). exact H.
Qed.

(** ** Records that do not parse *)

Section ParseFailure.
Context {rdkit : RDKit}.

(** C8: when the structural identifier of a retained record does not
    parse, the descriptor loop raises: it stops at the first such record,
    no feature table is produced, and no descriptor of any such record is
    ever written (its descriptor cells stay missing, never zero). *)
Theorem unparsable_record_aborts
        (tmp table : DataFrame) (k : nat) (s : string) :
  loader tmp = Ok table ->
  In k (index table) ->
  cell table k "SMILES" = Str s ->
  MolFromSmiles s = None ->
  feature_table tmp = Raise ArgumentError /\
  (forall x y, x_and_y tmp <> Ok (x, y)) /\
  exists t' before i after,
    descriptor_loop table = (t', Raise ArgumentError) /\
    index table = before ++ i :: after /\
    Forall (fun j => parsed table j <> None) before /\
    parsed table i = None /\
    forall c, is_descriptor c = true ->
      cell t' k c = NaN /\ cell t' k c <> Float 0 /\ cell t' k c <> Int 0.
Proof.
  intros Hload Hk Hs Hnone.
  assert (Hpk : parsed table k = None).
  { unfold parsed. rewrite Hs. exact Hnone. }
  destruct (for_each_descriptor_row (index table) table (tidy_loader _ _ Hload))
    as (t' & r & Hrun & _ & _ & _ & _ & Hpost).
  destruct r as [u|e]; simpl in Hpost.
  { destruct Hpost as (Hall & _). rewrite Forall_forall in Hall.
    exfalso. exact (Hall k Hk Hpk). }
  destruct Hpost as (-> & before & i & after & Hsplit & Hall & Hi & Hcells).
  assert (Hft : feature_table tmp = Raise ArgumentError).
  { unfold feature_table, descriptor_loop. rewrite Hload. simpl.
    rewrite Hrun. reflexivity. }
  split; [exact Hft|].
  split.
  { intros x y. unfold x_and_y. rewrite Hft. discriminate. }
  exists t', before, i, after.
  split; [exact Hrun|]. split; [exact Hsplit|].
  split; [exact Hall|]. split; [exact Hi|].
  intros c Hc.
  assert (Hnan : cell t' k c = NaN).
  { rewrite Hcells by exact Hc. unfold written.
    destruct (mem k before) eqn:Hmem.
    - rewrite Hpk. reflexivity.
    - apply (loader_lacks_descriptors tmp table Hload k c Hc). }
  rewrite Hnan. repeat split; discriminate.
Qed.

End ParseFailure.

Lemma unparsable_record_aborts_witness :
  feature_table (rdkit := two_alcohols) broken_table = Raise ArgumentError.
Proof.
  refine (proj1 (unparsable_record_aborts
                   (rdkit := two_alcohols) broken_table _ 1 "C(C" _ _ _ _)).
  - vm_compute. reflexivity.
  - vm_compute. auto.
  - vm_compute. reflexivity.
  - vm_compute. reflexivity.
Defined.

(** ** Records without a structural identifier *)

Section MissingSmiles.
Context {rdkit : RDKit}.

(** C10: the loader filters on the permeability column only.  A record
    with a permeability value is retained whatever its other cells hold;
    when its SMILES cell is missing, the loop body for that record applies
    the parser to the missing value and raises, so the run of the
    descriptor loop ends with an exception. *)
Theorem missing_smiles_reaches_parser (tmp table : DataFrame) (i : nat) :
  loader tmp = Ok table ->
  In i (index tmp) ->
  cell tmp i "BBB+/BBB-" <> NaN ->
  cell tmp i "SMILES" = NaN ->
  exists k,
    In k (index table) /\
    nth k (labelled tmp) 0 = i /\
    (forall c, In c required_columns -> cell table k c = cell tmp i c) /\
    cell table k "SMILES" = NaN /\
    mol_from_smiles (cell table k "SMILES") = Raise ArgumentError /\
    (forall t, cell t k "SMILES" = NaN ->
               descriptor_row k t = (t, Raise ArgumentError)) /\
    snd (descriptor_loop table) = Raise ArgumentError.
Proof.
  intros Hload Hi Hlabel Hsmiles.
  destruct (loader_shape tmp table Hload) as (_ & Hseq).
  assert (Hin : In i (labelled tmp)).
  { unfold labelled. apply filter_In. split; [exact Hi|].
    destruct (cell tmp i "BBB+/BBB-"); try reflexivity. contradiction. }
  destruct (In_nth _ _ 0 Hin) as (k & Hk & Hnth).
  assert (Hcells : forall c, In c required_columns ->
                             cell table k c = cell tmp i c).
  { intros c Hc. rewrite (loader_cells tmp table k c Hload Hk Hc), Hnth.
    reflexivity. }
  assert (Hks : cell table k "SMILES" = NaN).
  { rewrite Hcells; [exact Hsmiles|]. simpl. auto. }
  assert (Hkin : In k (index table)).
  { rewrite Hseq. apply in_seq. lia. }
  exists k.
  split; [exact Hkin|]. split; [exact Hnth|]. split; [exact Hcells|].
  split; [exact Hks|]. split; [rewrite Hks; reflexivity|].
  split.
  { intros t Ht. rewrite descriptor_row_eq. unfold parsed. rewrite Ht.
    reflexivity. }
  destruct (for_each_descriptor_row (index table) table (tidy_loader _ _ Hload))
    as (t' & r & Hrun & _ & _ & _ & _ & Hpost).
  unfold descriptor_loop. rewrite Hrun. simpl.
  destruct r as [u|e]; simpl in Hpost.
  - destruct Hpost as (Hall & _). rewrite Forall_forall in Hall.
    exfalso. apply (Hall k Hkin). unfold parsed. rewrite Hks. reflexivity.
  - destruct Hpost as (-> & _). reflexivity.
Qed.

End MissingSmiles.

Lemma missing_smiles_reaches_parser_witness :
  exists k,
    nth k (labelled broken_table) 0 = 2 /\
    cell broken_loaded k "SMILES" = NaN /\
    snd (descriptor_loop (rdkit := two_alcohols) broken_loaded)
      = Raise ArgumentError.
Proof.
  destruct (missing_smiles_reaches_parser
              (rdkit := two_alcohols) broken_table broken_loaded 2)
    as (k & _ & Hnth & _ & Hs & _ & _ & Hrun).
  - vm_compute. reflexivity.
  - vm_compute. auto.
  - vm_compute. discriminate.
  - vm_compute. reflexivity.
  - exists k. auto.
Defined.

(** ** When the loader fails *)

(** The required columns the input lacks. *)
Lemma absent_columns (tmp : DataFrame) :
  has_required tmp = false <->
  exists c, In c required_columns /\ has_column tmp c = false.
Proof.
  unfold has_required. split.
  - intros H.
    destruct (forallb (has_column tmp) required_columns) eqn:E; [discriminate|].
    clear H. unfold required_columns in *. simpl in E.
    repeat (apply andb_false_elim in E; destruct E as [E|E];
            [eexists; split; [|exact E]; simpl; auto|]).
    discriminate E.
  - intros (c & Hc & Habs).
    destruct (forallb (has_column tmp) required_columns) eqn:E; [|reflexivity].
    rewrite forallb_forall in E. rewrite (E c Hc) in Habs. discriminate.
Qed.

(** C9: the loader fails, with an exception that aborts the run before any
    descriptor is computed, whenever a required column is absent from the
    input (a [KeyError] on the absent columns) and whenever no row is left
    once the rows without a permeability value are dropped (a [ValueError],
    raised by the first assignment to [BBB_class]); it fails in no other
    case. *)
Theorem loader_rejects_absent_column_and_empty_data (tmp : DataFrame) :
  ((exists c, In c required_columns /\ has_column tmp c = false) ->
   loader tmp =
     Raise (KeyError (filter (fun c => negb (has_column tmp c))
                             required_columns))) /\
  (has_required tmp = true -> labelled tmp = [] ->
   loader tmp =
     Raise (ValueError
              "cannot set a frame with no defined index and a scalar")) /\
  ((exists e, loader tmp = Raise e) <->
   (exists c, In c required_columns /\ has_column tmp c = false) \/
   labelled tmp = []) /\
  (forall e, loader tmp = Raise e ->
     forall (rdkit : RDKit),
       feature_table tmp = Raise e /\ x_and_y tmp = Raise e).
Proof.
  rewrite <- absent_columns.
  split; [exact (loader_column_absent tmp)|].
  split; [exact (loader_no_record tmp)|].
  split.
  - split.
    + intros (e & He).
      destruct (has_required tmp) eqn:Hreq; [right|left; reflexivity].
      destruct (labelled tmp) as [|i rest] eqn:Hrows; [reflexivity|].
      rewrite (loader_columns_present tmp Hreq) in He
        by (rewrite Hrows; discriminate).
      discriminate He.
    + intros [Habs|Hrows].
      * eexists. apply loader_column_absent, Habs.
      * destruct (has_required tmp) eqn:Hreq.
        -- eexists. apply loader_no_record; [exact Hreq|exact Hrows].
        -- eexists. apply loader_column_absent, Hreq.
  - intros e He rdkit.
    assert (Hft : feature_table tmp = Raise e)
      by (unfold feature_table; rewrite He; reflexivity).
    split; [exact Hft|].
    unfold x_and_y. rewrite Hft. reflexivity.
Qed.

(** A table in which no record has a permeability value. *)
Example loader_on_unlabelled_table :
  labelled unlabelled_table = [] /\
  loader unlabelled_table =
    Raise (ValueError "cannot set a frame with no defined index and a scalar").
Proof. split; reflexivity. Qed.

(** ** Indexing by a list of positions *)

Section Take.
Context {A : Type}.
Implicit Types (a : list A) (ind : list nat).

Lemma take_app a ind ind' : take a (ind ++ ind') = take a ind ++ take a ind'.
Proof. unfold take. apply flat_map_app. Qed.

Lemma take_cons_valid a i ind v :
  nth_error a i = Some v -> take a (i :: ind) = v :: take a ind.
Proof. intros H. unfold take. simpl. rewrite H. reflexivity. Qed.

Lemma take_length a ind :
  Forall (fun i => i < List.length a) ind ->
  List.length (take a ind) = List.length ind.
Proof.
  induction 1 as [|i ind Hi _ IH]; [reflexivity|].
  destruct (nth_error a i) as [v|] eqn:E.
  - rewrite (take_cons_valid _ _ _ _ E). simpl. rewrite IH. reflexivity.
  - apply nth_error_None in E. lia.
Qed.

Lemma take_range pre a :
  take (pre ++ a) (seq (List.length pre) (List.length a)) = a.
Proof.
  revert pre. induction a as [|v a IH]; intros pre; [reflexivity|].
  cbn [List.length seq]. rewrite (take_cons_valid _ _ _ v).
  - f_equal. specialize (IH (pre ++ [v])).
    rewrite <- app_assoc, length_app in IH. simpl in IH.
    rewrite Nat.add_1_r in IH. exact IH.
  - rewrite nth_error_app2, Nat.sub_diag by lia. reflexivity.
Qed.

Lemma take_all a : take a (seq 0 (List.length a)) = a.
Proof. exact (take_range [] a). Qed.

Lemma take_Permutation a ind ind' :
  Permutation ind ind' -> Permutation (take a ind) (take a ind').
Proof. intros H. unfold take. apply Permutation_flat_map, H. Qed.

Lemma take_shuffle a p :
  Permutation p (seq 0 (List.length a)) -> Permutation (take a p) a.
Proof.
  intros H. rewrite <- (take_all a) at 2. apply take_Permutation, H.
Qed.

Lemma nth_error_take a ind k :
  Forall (fun i => i < List.length a) ind ->
  nth_error (take a ind) k =
    match nth_error ind k with
    | Some i => nth_error a i
    | None => None
    end.
Proof.
  intros H. revert k. induction H as [|i ind Hi _ IH]; intros k.
  - destruct k; reflexivity.
  - destruct (nth_error a i) as [v|] eqn:E.
    + rewrite (take_cons_valid _ _ _ _ E).
      destruct k; simpl; [symmetry; exact E|apply IH].
    + apply nth_error_None in E. lia.
Qed.

Lemma take_take a ind ind' :
  Forall (fun i => i < List.length a) ind ->
  take (take a ind) ind' = take a (take ind ind').
Proof.
  intros H. induction ind' as [|k ind' IH]; [reflexivity|].
  unfold take at 1 3. simpl. fold (take (take a ind) ind') (take ind ind').
  rewrite (nth_error_take a ind k H).
  destruct (nth_error ind k) as [i|] eqn:E; simpl.
  - rewrite IH. unfold take at 2. simpl. fold (take a (take ind ind')).
    reflexivity.
  - exact IH.
Qed.

End Take.

Lemma take_positions (n : nat) (ind : list nat) :
  Forall (fun i => i < n) ind -> take (seq 0 n) ind = ind.
Proof.
  induction 1 as [|i ind Hi _ IH]; [reflexivity|].
  rewrite (take_cons_valid _ _ _ i), IH; [reflexivity|].
  rewrite (nth_error_nth' _ 0) by (rewrite length_seq; exact Hi).
  rewrite seq_nth by exact Hi. reflexivity.
Qed.

(** ** The sizes of the two splits *)

Lemma n_test_fifth (n : nat) : n_test_of (1 # 5) n = (n + 4) / 5.
Proof.
  change (n_test_of (1 # 5) n)
    with (Z.to_nat (- (- (1 * Z.of_nat n) / 5)))%Z.
  rewrite Z.mul_1_l. apply Nat2Z.inj.
  rewrite Z2Nat.id by (Z.div_mod_to_equations; lia).
  rewrite Nat2Z.inj_div, Nat2Z.inj_add.
  change (Z.of_nat 4) with 4%Z. change (Z.of_nat 5) with 5%Z.
  Z.div_mod_to_equations; lia.
Qed.

Lemma n_test_quarter (n : nat) : n_test_of (1 # 4) n = (n + 3) / 4.
Proof.
  change (n_test_of (1 # 4) n)
    with (Z.to_nat (- (- (1 * Z.of_nat n) / 4)))%Z.
  rewrite Z.mul_1_l. apply Nat2Z.inj.
  rewrite Z2Nat.id by (Z.div_mod_to_equations; lia).
  rewrite Nat2Z.inj_div, Nat2Z.inj_add.
  change (Z.of_nat 3) with 3%Z. change (Z.of_nat 4) with 4%Z.
  Z.div_mod_to_equations; lia.
Qed.

(** ** The splitter *)

Lemma NoDup_app_disjoint {A : Type} (l l' : list A) (a : A) :
  NoDup (l ++ l') -> In a l -> In a l' -> False.
Proof.
  induction l as [|b l IH]; simpl; intros H Hl Hl'; [exact Hl|].
  inversion H as [|? ? Hb Hrest]; subst.
  destruct Hl as [->|Hl].
  - apply Hb, in_or_app. right. exact Hl'.
  - exact (IH Hrest Hl Hl').
Qed.

Section SplitterFacts.
Context {rng : RandomState}.

Lemma permutation_length n : List.length (permutation n) = n.
Proof.
  rewrite (Permutation_length (permutation_shuffles n)). apply length_seq.
Qed.

Lemma permutation_bound n : Forall (fun i => i < n) (permutation n).
Proof.
  apply Forall_forall. intros i Hi.
  apply (Permutation_in _ (permutation_shuffles n)), in_seq in Hi. lia.
Qed.

Lemma firstn_bound n k : Forall (fun i => i < n) (firstn k (permutation n)).
Proof.
  pose proof (permutation_bound n) as H.
  rewrite <- (firstn_skipn k (permutation n)) in H.
  apply Forall_app in H. apply H.
Qed.

Lemma skipn_bound n k : Forall (fun i => i < n) (skipn k (permutation n)).
Proof.
  pose proof (permutation_bound n) as H.
  rewrite <- (firstn_skipn k (permutation n)) in H.
  apply Forall_app in H. apply H.
Qed.

(** A feasible split: the test set holds the rows at the first [n_test]
    positions of the shuffle, the training set all the others. *)
Lemma train_test_split_ok {A B : Type} (x : list A) (y : list B) (ts : Q) :
  List.length y = List.length x ->
  n_test_of ts (List.length x) < List.length x ->
  let t := n_test_of ts (List.length x) in
  let p := permutation (List.length x) in
  train_test_split x y ts =
    Ok (take x (skipn t p), take x (firstn t p),
        take y (skipn t p), take y (firstn t p)).
Proof.
  intros Hlen Hfeasible t p. unfold train_test_split.
  rewrite Hlen, Nat.eqb_refl. simpl negb. cbv iota.
  fold t. fold p.
  destruct (Nat.eqb_spec (List.length x - t) 0) as [E|_]; [lia|].
  rewrite (firstn_all2 (n := List.length x - t)); [reflexivity|].
  rewrite length_skipn. unfold p. rewrite permutation_length. lia.
Qed.

(** An infeasible split is refused. *)
Lemma train_test_split_empty {A B : Type} (x : list A) (y : list B) (ts : Q) :
  List.length y = List.length x ->
  List.length x <= n_test_of ts (List.length x) ->
  train_test_split x y ts =
    Raise (ValueError "the resulting train set will be empty").
Proof.
  intros Hlen H. unfold train_test_split.
  rewrite Hlen, Nat.eqb_refl. simpl negb. cbv iota.
  destruct (Nat.eqb_spec (List.length x - n_test_of ts (List.length x)) 0);
    [reflexivity|lia].
Qed.

Lemma rest_positions_length n :
  List.length (rest_positions n) = n - n_test_of (1 # 5) n.
Proof.
  unfold rest_positions. rewrite length_skipn, permutation_length. reflexivity.
Qed.

Lemma rest_positions_bound n : Forall (fun i => i < n) (rest_positions n).
Proof. apply skipn_bound. Qed.

(** Three records or more: both splits are feasible, and each partition is
    the input read at its positions. *)
Lemma split_eq {A B : Type} (x : list A) (y : list B) :
  List.length y = List.length x ->
  3 <= List.length x ->
  let n := List.length x in
  split x y =
    Ok {| x_train := take x (train_positions n);
          y_train := take y (train_positions n);
          x_valid := take x (valid_positions n);
          y_valid := take y (valid_positions n);
          x_test := take x (test_positions n);
          y_test := take y (test_positions n) |}.
Proof.
  intros Hy Hn n. unfold split.
  assert (Ht1 : n_test_of (1 # 5) n < n /\ 2 <= n - n_test_of (1 # 5) n).
  { rewrite n_test_fifth. unfold n. split; lia. }
  assert (Hbx : Forall (fun i => i < List.length x) (rest_positions n))
    by apply rest_positions_bound.
  assert (Hby : Forall (fun i => i < List.length y) (rest_positions n))
    by (rewrite Hy; apply rest_positions_bound).
  rewrite (train_test_split_ok x y (1 # 5) Hy) by apply Ht1.
  cbn [bind]. fold n. fold (rest_positions n). fold (test_positions n).
  assert (Hlx : List.length (take x (rest_positions n))
                = n - n_test_of (1 # 5) n).
  { rewrite take_length by exact Hbx. apply rest_positions_length. }
  assert (Hly : List.length (take y (rest_positions n))
                = List.length (take x (rest_positions n))).
  { rewrite !take_length by assumption. reflexivity. }
  rewrite (train_test_split_ok _ _ (1 # 4) Hly);
    rewrite Hlx; [|rewrite n_test_quarter; lia].
  cbn [bind]. rewrite !take_take by assumption. reflexivity.
Qed.

(** The positions of the three partitions are a rearrangement of
    0, ..., n-1. *)
Lemma positions_shuffle (n : nat) :
  Permutation (train_positions n ++ valid_positions n ++ test_positions n)
              (seq 0 n).
Proof.
  rewrite app_assoc.
  transitivity (rest_positions n ++ test_positions n).
  - apply Permutation_app_tail.
    transitivity (valid_positions n ++ train_positions n);
      [apply Permutation_app_comm|].
    unfold valid_positions, train_positions.
    rewrite <- take_app, firstn_skipn.
    apply take_shuffle. rewrite rest_positions_length.
    apply permutation_shuffles.
  - transitivity (test_positions n ++ rest_positions n);
      [apply Permutation_app_comm|].
    unfold test_positions, rest_positions. rewrite firstn_skipn.
    apply permutation_shuffles.
Qed.

Lemma positions_bound (n : nat) :
  Forall (fun i => i < n)
         (train_positions n ++ valid_positions n ++ test_positions n).
Proof.
  apply Forall_forall. intros i Hi.
  apply (Permutation_in _ (positions_shuffle n)), in_seq in Hi. lia.
Qed.

Lemma positions_sizes (n : nat) :
  3 <= n ->
  List.length (test_positions n) = (n + 4) / 5 /\
  List.length (valid_positions n) = (n - (n + 4) / 5 + 3) / 4 /\
  List.length (train_positions n) + List.length (valid_positions n)
  + List.length (test_positions n) = n.
Proof.
  intros Hn.
  assert (Htest : List.length (test_positions n) = (n + 4) / 5).
  { unfold test_positions. rewrite length_firstn, permutation_length.
    rewrite n_test_fifth. lia. }
  assert (Hvalid : List.length (valid_positions n) = (n - (n + 4) / 5 + 3) / 4).
  { unfold valid_positions. rewrite take_length.
    - rewrite length_firstn, permutation_length, n_test_quarter, n_test_fifth.
      lia.
    - rewrite rest_positions_length. apply firstn_bound. }
  pose proof (Permutation_length (positions_shuffle n)) as Hsum.
  rewrite !length_app, length_seq in Hsum.
  split; [exact Htest|]. split; [exact Hvalid|]. lia.
Qed.

(** On the positions themselves the partitions are the position lists. *)
Lemma split_feasible {B : Type} (N : nat) (y : list B) :
  3 <= N ->
  List.length y = N ->
  exists parts,
    split (seq 0 N) y = Ok parts /\
    let train := x_train parts in
    let valid := x_valid parts in
    let test := x_test parts in
    Permutation (train ++ valid ++ test) (seq 0 N) /\
    NoDup (train ++ valid ++ test) /\
    (forall i, i < N <-> In i train \/ In i valid \/ In i test) /\
    (forall i, ~ (In i train /\ In i valid) /\
               ~ (In i train /\ In i test) /\
               ~ (In i valid /\ In i test)) /\
    y_train parts = take y train /\
    y_valid parts = take y valid /\
    y_test parts = take y test /\
    List.length test = (N + 4) / 5 /\
    List.length valid = (N - (N + 4) / 5 + 3) / 4 /\
    List.length train + List.length valid + List.length test = N /\
    (N = 100 ->
     List.length train = 60 /\ List.length valid = 20 /\
     List.length test = 20).
Proof.
  intros HN Hy.
  pose proof (positions_bound N) as Hb.
  apply Forall_app in Hb. destruct Hb as [Hbtrain Hb].
  apply Forall_app in Hb. destruct Hb as [Hbvalid Hbtest].
  eexists. split.
  { rewrite split_eq; rewrite ?length_seq; [reflexivity|exact Hy|exact HN]. }
  cbn [x_train x_valid x_test y_train y_valid y_test].
  rewrite !take_positions by assumption.
  pose proof (positions_shuffle N) as Hperm.
  assert (Hnodup : NoDup (train_positions N ++ valid_positions N
                          ++ test_positions N)).
  { apply (Permutation_NoDup (Permutation_sym Hperm)), seq_NoDup. }
  destruct (positions_sizes N HN) as (Hlt & Hlv & Hsum).
  split; [exact Hperm|]. split; [exact Hnodup|].
  split.
  { intros i. rewrite <- !in_app_iff. split.
    - intros Hi. apply (Permutation_in _ (Permutation_sym Hperm)), in_seq. lia.
    - intros Hi. apply (Permutation_in _ Hperm), in_seq in Hi. lia. }
  split.
  { intros i. repeat split; intros [H1 H2].
    - apply (NoDup_app_disjoint _ _ i Hnodup H1).
      apply in_or_app. left. exact H2.
    - apply (NoDup_app_disjoint _ _ i Hnodup H1).
      apply in_or_app. right. exact H2.
    - apply NoDup_app_remove_l in Hnodup.
      exact (NoDup_app_disjoint _ _ i Hnodup H1 H2). }
  split; [reflexivity|]. split; [reflexivity|]. split; [reflexivity|].
  split; [exact Hlt|]. split; [exact Hlv|]. split; [exact Hsum|].
  intros ->. rewrite Hlv, Hlt in *.
  change ((100 + 4) / 5) with 20 in *.
  change ((100 - 20 + 3) / 4) with 20 in *. lia.
Qed.

(** The partitions of any data are the data read at the partitions of the
    positions. *)
Lemma split_reads_positions {A B : Type} (x : list A) (y : list B) :
  List.length y = List.length x ->
  3 <= List.length x ->
  exists parts positions,
    split x y = Ok parts /\
    split (seq 0 (List.length x)) y = Ok positions /\
    x_train parts = take x (x_train positions) /\
    x_valid parts = take x (x_valid positions) /\
    x_test parts = take x (x_test positions) /\
    y_train parts = y_train positions /\
    y_valid parts = y_valid positions /\
    y_test parts = y_test positions.
Proof.
  intros Hy Hn.
  pose proof (positions_bound (List.length x)) as Hb.
  apply Forall_app in Hb. destruct Hb as [Hbtrain Hb].
  apply Forall_app in Hb. destruct Hb as [Hbvalid Hbtest].
  eexists. eexists.
  split; [apply split_eq; assumption|].
  split; [apply split_eq; rewrite length_seq; assumption|].
  cbn [x_train x_valid x_test y_train y_valid y_test].
  rewrite length_seq, !take_positions by assumption.
  repeat split; reflexivity.
Qed.

End SplitterFacts.

(** Below three records scikit-learn refuses one of the two splits. *)
Lemma split_infeasible {rng : RandomState} {A B : Type}
      (x : list A) (y : list B) :
  List.length y = List.length x -> List.length x < 3 ->
  split x y = Raise (ValueError "the resulting train set will be empty").
Proof.
  intros Hy Hx. unfold split.
  destruct (Nat.le_gt_cases (List.length x) (n_test_of (1 # 5) (List.length x)))
    as [Hle|Hgt].
  - rewrite (train_test_split_empty x y _ Hy Hle). reflexivity.
  - rewrite (train_test_split_ok x y _ Hy Hgt). cbn [bind].
    rewrite n_test_fifth in *.
    assert (Hb : forall k, Forall (fun i => i < List.length x)
                                  (skipn k (permutation (List.length x))))
      by (intros k; apply skipn_bound).
    rewrite train_test_split_empty; [reflexivity| |].
    + rewrite !take_length; [reflexivity|apply Hb|rewrite Hy; apply Hb].
    + rewrite take_length by apply Hb.
      rewrite length_skipn, permutation_length, n_test_quarter. lia.
Qed.

Lemma split_mismatch {rng : RandomState} {A B : Type}
      (x : list A) (y : list B) :
  List.length y <> List.length x ->
  split x y = Raise (ValueError "inconsistent numbers of samples").
Proof.
  intros H. unfold split, train_test_split.
  apply Nat.eqb_neq in H. rewrite H. reflexivity.
Qed.

(** C2: whatever the input, the three lists of record positions the two
    splits return are pairwise disjoint and together are exactly
    0, ..., N-1, the labels travelling with their records.  The splits
    succeed for every N from 3 on (below, scikit-learn refuses a split that
    leaves the training set empty).  The sizes are ceil(N/5) for the test
    set, the ceiling of a quarter of the rest for the validation set and the
    remainder for the training set: 60, 20 and 20 when N is 100. *)
Theorem split_is_a_partition {rng : RandomState} {B : Type}
        (N : nat) (y : list B) :
  (forall parts, split (seq 0 N) y = Ok parts ->
     let train := x_train parts in
     let valid := x_valid parts in
     let test := x_test parts in
     Permutation (train ++ valid ++ test) (seq 0 N) /\
     NoDup (train ++ valid ++ test) /\
     (forall i, i < N <-> In i train \/ In i valid \/ In i test) /\
     (forall i, ~ (In i train /\ In i valid) /\
                ~ (In i train /\ In i test) /\
                ~ (In i valid /\ In i test)) /\
     y_train parts = take y train /\
     y_valid parts = take y valid /\
     y_test parts = take y test /\
     List.length test = (N + 4) / 5 /\
     List.length valid = (N - (N + 4) / 5 + 3) / 4 /\
     List.length train + List.length valid + List.length test = N) /\
  (3 <= N -> List.length y = N -> exists parts, split (seq 0 N) y = Ok parts) /\
  (N = 100 -> List.length y = N ->
     exists parts,
       split (seq 0 N) y = Ok parts /\
       List.length (x_train parts) = 60 /\
       List.length (x_valid parts) = 20 /\
       List.length (x_test parts) = 20).
Proof.
  split; [|split].
  - intros parts Hrun.
    destruct (Nat.eq_dec (List.length y) N) as [Hy|Hy].
    2:{ rewrite split_mismatch in Hrun by (rewrite length_seq; exact Hy).
        discriminate Hrun. }
    destruct (Nat.lt_ge_cases N 3) as [Hlt|Hge].
    { rewrite split_infeasible in Hrun by (rewrite length_seq; assumption).
      discriminate Hrun. }
    destruct (split_feasible N y Hge Hy) as (parts' & Hrun' & H).
    rewrite Hrun in Hrun'. injection Hrun' as <-.
    cbv zeta in H |- *. intuition.
  - intros HN Hy.
    destruct (split_feasible N y HN Hy) as (parts & Hrun & _).
    exists parts. exact Hrun.
  - intros HN Hy.
    destruct (split_feasible N y) as (parts & Hrun & H); [lia|exact Hy|].
    exists parts. split; [exact Hrun|]. apply H. exact HN.
Qed.

Lemma split_is_a_partition_witness :
  exists parts,
    split (rng := reversing) (seq 0 100) (repeat true 100) = Ok parts /\
    List.length (x_train parts) = 60 /\
    List.length (x_valid parts) = 20 /\
    List.length (x_test parts) = 20.
Proof.
  apply (split_is_a_partition (rng := reversing) 100 (repeat true 100));
    reflexivity.
Defined.


(** ** The decision tree on its training set *)

Lemma count_class_split (S : list (sample * bool)) (c : bool) f t :
  count_class c S = count_class c (left_of S f t) + count_class c (right_of S f t).
Proof.
  unfold count_class, left_of, right_of.
  induction S as [|s S IH]; [reflexivity|].
  simpl. destruct (goes_left f t (fst s)); simpl;
    destruct (Bool.eqb (snd s) c); simpl; lia.
Qed.

Lemma count_class_total (S : list (sample * bool)) :
  count_class false S + count_class true S = List.length S.
Proof.
  unfold count_class. induction S as [|[x []] S IH]; simpl; lia.
Qed.

Lemma correct_leaf (n0 n1 : nat) (S : list (sample * bool)) :
  correct (Leaf n0 n1) S =
    if n0 <? n1 then count_class true S else count_class false S.
Proof.
  unfold correct, count_class. simpl.
  destruct (n0 <? n1); f_equal; apply filter_ext; intros [x []]; reflexivity.
Qed.

Lemma correct_node f t l r (S : list (sample * bool)) :
  correct (Node f t l r) S =
    correct l (left_of S f t) + correct r (right_of S f t).
Proof.
  unfold correct, left_of, right_of.
  induction S as [|s S IH]; [reflexivity|].
  simpl in IH |- *. destruct (goes_left f t (fst s)); simpl.
  - destruct (Bool.eqb (predict_one l (fst s)) (snd s)); simpl; lia.
  - destruct (Bool.eqb (predict_one r (fst s)) (snd s)); simpl; lia.
Qed.

Lemma correct_bound (t : tree) (S : list (sample * bool)) :
  correct t S <= List.length S.
Proof. unfold correct. apply filter_length_le. Qed.

Section Training.
Variable order : visiting.

(** The tree built for a node: a leaf with the node's class counts, or the
    best split with the trees of the two children one level deeper. *)
Lemma build_succ (d : nat) (path : list bool) (S : list (sample * bool)) :
  build order (Datatypes.S d) path S =
    if (count_class false S =? 0) || (count_class true S =? 0)
    then Leaf (count_class false S) (count_class true S)
    else match best_split S (order path) with
         | None => Leaf (count_class false S) (count_class true S)
         | Some c =>
             Node (cand_feature c) (cand_threshold c)
                  (build order d (path ++ [false])
                         (left_of S (cand_feature c) (cand_threshold c)))
                  (build order d (path ++ [true])
                         (right_of S (cand_feature c) (cand_threshold c)))
         end.
Proof. reflexivity. Qed.

(** A fitted tree is right on its training samples at least as often as
    the majority vote. *)
Lemma build_beats_majority (d : nat) :
  forall path S,
    Nat.max (count_class false S) (count_class true S)
    <= correct (build order d path S) S.
Proof.
  induction d as [|d IH]; intros path S.
  - simpl. rewrite correct_leaf.
    destruct (Nat.ltb_spec (count_class false S) (count_class true S)); lia.
  - rewrite build_succ.
    assert (Hleaf : Nat.max (count_class false S) (count_class true S)
              <= correct (Leaf (count_class false S) (count_class true S)) S).
    { rewrite correct_leaf.
      destruct (Nat.ltb_spec (count_class false S) (count_class true S)); lia. }
    destruct ((count_class false S =? 0) || (count_class true S =? 0));
      [exact Hleaf|].
    destruct (best_split S (order path)) as [c|]; [|exact Hleaf].
    rewrite correct_node.
    set (f := cand_feature c). set (t := cand_threshold c).
    pose proof (IH (path ++ [false]) (left_of S f t)) as Hl.
    pose proof (IH (path ++ [true]) (right_of S f t)) as Hr.
    rewrite (count_class_split S false f t), (count_class_split S true f t).
    lia.
Qed.

(** One more level never lowers the number of training samples the tree
    gets right, when the splitter visits the features in the same order. *)
Lemma build_monotone (d : nat) :
  forall path S,
    correct (build order d path S) S
    <= correct (build order (Datatypes.S d) path S) S.
Proof.
  induction d as [|d IH]; intros path S.
  - etransitivity; [|apply build_beats_majority].
    simpl. rewrite correct_leaf.
    destruct (Nat.ltb_spec (count_class false S) (count_class true S)); lia.
  - rewrite (build_succ (Datatypes.S d)), (build_succ d).
    destruct ((count_class false S =? 0) || (count_class true S =? 0));
      [reflexivity|].
    destruct (best_split S (order path)) as [c|]; [|reflexivity].
    rewrite !correct_node.
    apply Nat.add_le_mono; apply IH.
Qed.

Lemma fit_ok (D : nat) (X : list sample) (y : list bool) :
  1 <= D -> List.length y = List.length X -> X <> [] ->
  fit order D X y = Ok (build order D [] (combine X y)).
Proof.
  intros HD Hy HX. unfold fit.
  destruct (Nat.eqb_spec D 0); [lia|].
  rewrite Hy, Nat.eqb_refl. simpl.
  destruct X; [contradiction|reflexivity].
Qed.

End Training.

(** [score] on a non-empty list of samples with as many labels. *)
Lemma score_ok (t : tree) (X : list sample) (y : list bool) :
  List.length y = List.length X ->
  X <> [] ->
  score t X y = Ok (Num (ratio (correct t (combine X y)) (List.length X))).
Proof.
  intros Hy HX. unfold score.
  destruct (Nat.eqb_spec (List.length X) 0) as [E|_].
  { destruct X; [contradiction|discriminate E]. }
  rewrite Hy, Nat.eqb_refl. reflexivity.
Qed.

Lemma score_raises (t : tree) (X : list sample) (y : list bool) :
  X = [] \/ List.length y <> List.length X ->
  exists msg, score t X y = Raise (ValueError msg).
Proof.
  intros H. unfold score.
  destruct (Nat.eqb_spec (List.length X) 0) as [E|HX]; [eexists; reflexivity|].
  destruct (Nat.eqb_spec (List.length y) (List.length X)) as [Hy|_];
    [|eexists; reflexivity].
  destruct H as [->|H]; [contradiction HX; reflexivity|contradiction].
Qed.

Lemma ratio_le (a b n : nat) : a <= b -> (ratio a n <= ratio b n)%Q.
Proof.
  intros H. unfold ratio, Qle. simpl.
  apply Z.mul_le_mono_nonneg_r; lia.
Qed.

(** ** The entropy criterion *)

Section EntropyCriterion.
#[local] Open Scope R_scope.

Lemma self_power_pos (k : nat) : (0 < Z.of_nat k ^ Z.of_nat k)%Z.
Proof.
  destruct k as [|k]; [reflexivity|].
  apply Z.pow_pos_nonneg; lia.
Qed.

Lemma IZR_self_power (k : nat) : IZR (Z.pos (self_power k)) = INR k ^ k.
Proof.
  unfold self_power. rewrite Z2Pos.id by apply self_power_pos.
  rewrite <- pow_IZR, <- INR_IZR_INZ. reflexivity.
Qed.

Lemma ln_self_power (k : nat) : ln (INR k ^ k) = xlnx k.
Proof.
  unfold xlnx. destruct k as [|k].
  - simpl. rewrite ln_1. lra.
  - apply ln_pow. apply lt_0_INR. lia.
Qed.

Lemma self_power_R_pos (k : nat) : 0 < INR k ^ k.
Proof.
  rewrite <- IZR_self_power. apply IZR_lt. reflexivity.
Qed.

Lemma ln_perplexity (S : list (sample * bool)) :
  ln (Q2R (perplexity S)) =
    xlnx (count_class false S + count_class true S)
    - xlnx (count_class false S) - xlnx (count_class true S).
Proof.
  unfold perplexity, Q2R. cbn [Qnum Qden].
  rewrite Pos2Z.inj_mul, mult_IZR, !IZR_self_power.
  set (n0 := count_class false S). set (n1 := count_class true S).
  pose proof (self_power_R_pos n0). pose proof (self_power_R_pos n1).
  pose proof (self_power_R_pos (n0 + n1)).
  rewrite ln_mult, ln_Rinv, ln_mult, !ln_self_power; try assumption.
  - lra.
  - apply Rmult_lt_0_compat; assumption.
  - apply Rinv_0_lt_compat, Rmult_lt_0_compat; assumption.
Qed.

Lemma plogp_xlnx (c n : nat) :
  (c <= n)%nat ->
  INR n * plogp c n * ln 2 = xlnx c - INR c * ln (INR n).
Proof.
  intros Hcn. unfold plogp, xlnx.
  destruct (Nat.eqb_spec c 0) as [->|Hc].
  - simpl. lra.
  - assert (0 < INR c) by (apply lt_0_INR; lia).
    assert (0 < INR n) by (apply lt_0_INR; lia).
    assert (0 < ln 2) by (rewrite <- ln_1; apply ln_increasing; lra).
    assert (Hln : ln (INR c / INR n) = ln (INR c) - ln (INR n)).
    { unfold Rdiv. rewrite ln_mult, ln_Rinv;
        try apply Rinv_0_lt_compat; try assumption. lra. }
    rewrite Hln. field. split; lra.
Qed.

(** The rational attached to a node is two to the power of its size times
    its entropy. *)
Lemma weighted_entropy (S : list (sample * bool)) :
  INR (List.length S) * entropy S * ln 2 = ln (Q2R (perplexity S)).
Proof.
  rewrite ln_perplexity, <- count_class_total. unfold entropy.
  set (n0 := count_class false S). set (n1 := count_class true S).
  pose proof (plogp_xlnx n0 (n0 + n1) ltac:(lia)) as H0.
  pose proof (plogp_xlnx n1 (n0 + n1) ltac:(lia)) as H1.
  unfold xlnx in *. rewrite plus_INR in *. nra.
Qed.

Lemma perplexity_pos (S : list (sample * bool)) : 0 < Q2R (perplexity S).
Proof.
  unfold perplexity, Q2R. cbn [Qnum Qden].
  apply Rmult_lt_0_compat; [|apply Rinv_0_lt_compat]; apply IZR_lt; reflexivity.
Qed.

Lemma ln_split_cost (S : list (sample * bool)) (f : nat) (t : Q) :
  ln (Q2R (split_cost S f t)) = - proxy_impurity_improvement S f t * ln 2.
Proof.
  unfold split_cost, proxy_impurity_improvement.
  rewrite Q2R_mult, ln_mult by apply perplexity_pos.
  rewrite <- !weighted_entropy. lra.
Qed.

Lemma Qlt_bool_iff (a b : Q) : Qlt_bool a b = true <-> (a < b)%Q.
Proof.
  unfold Qlt_bool. rewrite negb_true_iff. split.
  - intros H. apply Qnot_le_lt. intros Hle.
    apply Qle_bool_iff in Hle. congruence.
  - intros H. destruct (Qle_bool b a) eqn:E; [|reflexivity].
    apply Qle_bool_iff in E. exfalso. exact (Qlt_not_le _ _ H E).
Qed.

(** The model's strict comparison of two splits is the library's strict
    comparison of their improvements. *)
Theorem cost_order_is_entropy_order
        (S : list (sample * bool)) (f f' : nat) (t t' : Q) :
  Qlt_bool (split_cost S f t) (split_cost S f' t') = true <->
  proxy_impurity_improvement S f' t' < proxy_impurity_improvement S f t.
Proof.
  assert (Hln2 : 0 < ln 2) by (rewrite <- ln_1; apply ln_increasing; lra).
  assert (Hpos : forall g u, 0 < Q2R (split_cost S g u)).
  { intros g u. unfold split_cost. rewrite Q2R_mult.
    apply Rmult_lt_0_compat; apply perplexity_pos. }
  rewrite Qlt_bool_iff. split.
  - intros H. apply Qlt_Rlt in H.
    apply ln_increasing in H; [|apply Hpos].
    rewrite !ln_split_cost in H. nra.
  - intros H. apply Rlt_Qlt.
    apply ln_lt_inv; try apply Hpos.
    rewrite !ln_split_cost. nra.
Qed.
End EntropyCriterion.

(** ** Determinism of training *)

(** C4: the claim fails on the code.  Two fits with the same two training
    compounds, the same classes, the entropy criterion and depth 1 visit the
    features in different orders (nothing fixes the order: the classifier is
    built without [random_state]); both splits are equally good, each fit
    keeps the one it met first, and the two models disagree on the query. *)
Theorem fit_depends_on_visiting_order :
  exists t1 t2,
    fit first_feature_first 1 two_compounds two_classes = Ok t1 /\
    fit second_feature_first 1 two_compounds two_classes = Ok t2 /\
    predict t1 [query] = [false] /\
    predict t2 [query] = [true].
Proof.
  eexists. eexists.
  split; [vm_compute; reflexivity|].
  split; [vm_compute; reflexivity|].
  split; vm_compute; reflexivity.
Qed.

(** ** Depth and training accuracy *)

(** C5, as amended: for every training set and every depth D of the sweep
    (every D from 1 on), the training accuracy of the tree fit at depth D+1
    is at least that of the tree fit at depth D, provided both fits visit
    the features in the same order at every node. *)
Theorem training_accuracy_monotone
        (order : visiting) (D : nat) (X : list sample) (y : list bool) :
  1 <= D ->
  List.length y = List.length X ->
  X <> [] ->
  exists t t' a a',
    fit order D X y = Ok t /\
    fit order (D + 1) X y = Ok t' /\
    score t X y = Ok (Num a) /\
    score t' X y = Ok (Num a') /\
    (a <= a')%Q.
Proof.
  intros HD Hy HX.
  exists (build order D [] (combine X y)),
         (build order (D + 1) [] (combine X y)).
  eexists. eexists.
  split; [apply fit_ok; assumption|].
  split; [apply fit_ok; [lia|assumption|assumption]|].
  rewrite !score_ok by assumption.
  split; [reflexivity|]. split; [reflexivity|].
  apply ratio_le. rewrite Nat.add_1_r. apply build_monotone.
Qed.

Lemma training_accuracy_monotone_witness :
  exists t t' a a',
    fit first_feature_first 2 (map fst twenty_four) (map snd twenty_four) = Ok t /\
    fit first_feature_first (2 + 1) (map fst twenty_four) (map snd twenty_four)
      = Ok t' /\
    score t (map fst twenty_four) (map snd twenty_four) = Ok (Num a) /\
    score t' (map fst twenty_four) (map snd twenty_four) = Ok (Num a') /\
    (a <= a')%Q.
Proof.
  apply (training_accuracy_monotone first_feature_first 2).
  - lia.
  - reflexivity.
  - discriminate.
Defined.

(** C5, as stated, fails: on the twenty-four samples the fit at depth 2 that
    meets feature [a] first is right on all of them, the fit at depth 3 that
    meets feature [b] first on sixteen. *)
Lemma deeper_tree_can_fit_worse :
  exists t2 t3,
    fit first_feature_first 2 (map fst twenty_four) (map snd twenty_four) = Ok t2 /\
    fit third_feature_first 3 (map fst twenty_four) (map snd twenty_four) = Ok t3 /\
    score t2 (map fst twenty_four) (map snd twenty_four) = Ok (Num (24 # 24)) /\
    score t3 (map fst twenty_four) (map snd twenty_four) = Ok (Num (16 # 24)) /\
    ~ (24 # 24 <= 16 # 24)%Q.
Proof.
  eexists. eexists.
  split; [vm_compute; reflexivity|].
  split; [vm_compute; reflexivity|].
  split; [vm_compute; reflexivity|].
  split; [vm_compute; reflexivity|].
  intros H. vm_compute in H. apply H. reflexivity.
Qed.

(** ** The evaluator *)

Lemma count_pair_total (y_true y_pred : list bool) :
  count_pair false false y_true y_pred + count_pair false true y_true y_pred
  + count_pair true false y_true y_pred + count_pair true true y_true y_pred
  = List.length (combine y_true y_pred).
Proof.
  unfold count_pair.
  induction (combine y_true y_pred) as [|[[] []] l IH]; simpl in *; lia.
Qed.

Lemma evaluator_inv (y_true y_pred : list bool) (rep : report) :
  evaluator y_true y_pred = Ok rep ->
  List.length y_true = List.length y_pred /\
  unique_labels y_true y_pred = [false; true] /\
  tn rep = count_pair false false y_true y_pred /\
  fp rep = count_pair false true y_true y_pred /\
  fn rep = count_pair true false y_true y_pred /\
  tp rep = count_pair true true y_true y_pred /\
  precision rep = fst (precision_score warn y_true y_pred) /\
  recall rep = fst (recall_score warn y_true y_pred) /\
  warnings rep = snd (precision_score warn y_true y_pred)
                 ++ snd (recall_score warn y_true y_pred).
Proof.
  unfold evaluator, confusion_matrix.
  destruct (Nat.eqb_spec (List.length y_true) (List.length y_pred)) as [E|_];
    [|discriminate].
  cbn [negb]. destruct (List.length y_true =? 0); [discriminate|].
  cbn [bind]. unfold unique_labels. cbn [filter].
  destruct (existsb (Bool.eqb false) (y_true ++ y_pred)),
           (existsb (Bool.eqb true) (y_true ++ y_pred));
    cbn [map ravel List.concat app]; try discriminate.
  destruct (precision_score warn y_true y_pred) as [p wp].
  destruct (recall_score warn y_true y_pred) as [r wr].
  intros [= <-]. cbn. repeat split; auto.
Qed.

Lemma evaluator_two_labels (y_true y_pred : list bool) :
  List.length y_true = List.length y_pred ->
  unique_labels y_true y_pred = [false; true] ->
  exists rep, evaluator y_true y_pred = Ok rep.
Proof.
  intros E H. unfold evaluator, confusion_matrix.
  destruct (Nat.eqb_spec (List.length y_true) 0) as [E0|_].
  { destruct y_true; [|discriminate E0]. destruct y_pred; discriminate. }
  rewrite E, Nat.eqb_refl. cbn [negb bind]. rewrite H.
  cbn [map ravel List.concat app].
  destruct (precision_score warn y_true y_pred) as [p wp].
  destruct (recall_score warn y_true y_pred) as [r wr].
  eexists. reflexivity.
Qed.

(** Whenever the evaluator reports, the four cells are the four counts and
    add up to the number of samples. *)
Lemma evaluator_cells (y_true y_pred : list bool) (rep : report) :
  evaluator y_true y_pred = Ok rep ->
  tn rep = count_pair false false y_true y_pred /\
  fp rep = count_pair false true y_true y_pred /\
  fn rep = count_pair true false y_true y_pred /\
  tp rep = count_pair true true y_true y_pred /\
  tp rep + fp rep + fn rep + tn rep = List.length y_true.
Proof.
  intros H. apply evaluator_inv in H.
  destruct H as (E & _ & -> & -> & -> & -> & _).
  repeat split; auto.
  pose proof (count_pair_total y_true y_pred) as Ht.
  rewrite length_combine, <- E, Nat.min_id in Ht. lia.
Qed.

(** Ten samples: six true positives, one false positive, two false
    negatives, one true negative. *)
Example ten_samples :
  exists rep,
    evaluator
      [true; true; true; true; true; true; false; true; true; false]
      [true; true; true; true; true; true; true; false; false; false]
    = Ok rep /\
    tp rep = 6 /\ fp rep = 1 /\ fn rep = 2 /\ tn rep = 1 /\
    precision rep = Num (6 # 7) /\ recall rep = Num (6 # 8) /\
    warnings rep = [].
Proof.
  eexists. split; [vm_compute; reflexivity|].
  repeat split; reflexivity.
Qed.

(** C6: the claim fails on the code.  When a single class occurs among the
    true and the predicted labels, the matrix has one cell, not four, and
    the unpacking of [cm.ravel()] into four counts raises; the claim asks
    for TN = FP = FN = 0 and TP = 1 there. *)
Theorem single_class_breaks_the_unpacking :
  count_pair true true [true] [true] = 1 /\
  confusion_matrix [true] [true] = Ok [[1]] /\
  evaluator [true] [true]
    = Raise (ValueError "not enough values to unpack (expected 4)") /\
  forall rep, evaluator [true] [true] <> Ok rep.
Proof.
  split; [reflexivity|]. split; [reflexivity|].
  split; [reflexivity|]. intros rep. discriminate.
Qed.

(** C7, as amended: precision is TP/(TP+FP) and recall is TP/(TP+FN) when
    the denominator is not zero; when it is zero the metric is reported as
    0, together with an undefined-metric warning, not as NaN. *)
Theorem metrics_with_zero_division (y_true y_pred : list bool) (rep : report) :
  evaluator y_true y_pred = Ok rep ->
  (tp rep + fp rep <> 0 ->
     precision rep = Num (ratio (tp rep) (tp rep + fp rep))) /\
  (tp rep + fn rep <> 0 ->
     recall rep = Num (ratio (tp rep) (tp rep + fn rep))) /\
  (tp rep + fp rep = 0 ->
     precision rep = Num 0 /\
     In (UndefinedMetricWarning "Precision") (warnings rep)) /\
  (tp rep + fn rep = 0 ->
     recall rep = Num 0 /\
     In (UndefinedMetricWarning "Recall") (warnings rep)).
Proof.
  intros H. apply evaluator_inv in H.
  destruct H as (_ & _ & _ & -> & -> & -> & -> & -> & ->).
  unfold precision_score, recall_score, prf_divide.
  repeat split.
  - intros Hne. apply Nat.eqb_neq in Hne. rewrite Hne. reflexivity.
  - intros Hne. apply Nat.eqb_neq in Hne. rewrite Hne. reflexivity.
  - apply Nat.eqb_eq in H. rewrite H. reflexivity.
  - apply Nat.eqb_eq in H. rewrite H. apply in_or_app. left. left. reflexivity.
  - apply Nat.eqb_eq in H. rewrite H. reflexivity.
  - apply Nat.eqb_eq in H. rewrite H. apply in_or_app. right. left. reflexivity.
Qed.

Lemma metrics_with_zero_division_witness :
  exists rep,
    evaluator [false; true; true] [true; true; false] = Ok rep /\
    precision rep = Num (1 # 2) /\ recall rep = Num (1 # 2).
Proof.
  destruct (evaluator [false; true; true] [true; true; false])
    as [rep|e] eqn:E; [|vm_compute in E; discriminate E].
  destruct (metrics_with_zero_division _ _ rep E) as (Hp & Hr & _).
  exists rep. split; [reflexivity|].
  vm_compute in E. injection E as <-.
  split; [apply Hp|apply Hr]; discriminate.
Defined.

(** C7, as stated, fails: with no predicted positive the precision is 0/0
    and is reported as 0, and with no true positive label the recall is 0/0
    and is reported as 0; neither is NaN. *)
Lemma undefined_metric_is_zero :
  exists rep rep',
    evaluator [false; true] [false; false] = Ok rep /\
    tp rep + fp rep = 0 /\
    precision rep = Num 0 /\ precision rep <> nan /\
    evaluator [false; false] [false; true] = Ok rep' /\
    tp rep' + fn rep' = 0 /\
    recall rep' = Num 0 /\ recall rep' <> nan.
Proof.
  eexists. eexists.
  split; [vm_compute; reflexivity|].
  split; [reflexivity|]. split; [reflexivity|]. split; [discriminate|].
  split; [vm_compute; reflexivity|].
  split; [reflexivity|]. split; [reflexivity|]. discriminate.
Qed.

(** ** A run of the whole notebook *)

Example ten_compounds_run :
  exists out,
    notebook (rdkit := two_alcohols) (rng := reversing)
             in_feature_order ten_compounds = Ok out /\
    valid_score_depth_3 out = Num (2 # 2) /\
    score_list out = repeat (Num (2 # 2)) 24 /\
    prediction out = [false; true] /\
    (tn (metrics out), fp (metrics out), fn (metrics out), tp (metrics out))
      = (1, 0, 0, 1) /\
    precision (metrics out) = Num (1 # 1) /\
    recall (metrics out) = Num (1 # 1).
Proof.
  eexists. split; [vm_compute; reflexivity|].
  repeat split; reflexivity.
Qed.

(** * Further properties of the cells *)

(** ** The table after the descriptor loop *)

Lemma columns_loc_set (df : DataFrame) rows c v :
  columns (loc_set df rows c v) =
    if has_column df c then columns df else columns df ++ [c].
Proof. reflexivity. Qed.

Lemma loader_class (tmp table : DataFrame) (k : nat) :
  loader tmp = Ok table ->
  k < List.length (labelled tmp) ->
  cell table k "BBB_class"
  = class_of (cell tmp (nth k (labelled tmp) 0) "BBB+/BBB-").
Proof.
  intros H Hk. rewrite (loader_inv tmp table H).
  apply Nat.ltb_lt in Hk. simpl. rewrite Hk. reflexivity.
Qed.

Section AugmentedTable.
Context {rdkit : RDKit}.

Lemma columns_write_row_fresh (t : DataFrame) i m :
  (forall c, is_descriptor c = true -> has_column t c = false) ->
  columns (write_row i m t) = columns t ++ descriptor_columns.
Proof.
  intros H. unfold write_row, descriptor_columns. cbn [fold_left].
  rewrite !columns_loc_set, !has_column_loc_set, !H by reflexivity.
  simpl. rewrite <- !app_assoc. reflexivity.
Qed.

Lemma columns_write_row_present (t : DataFrame) i m :
  (forall c, is_descriptor c = true -> has_column t c = true) ->
  columns (write_row i m t) = columns t.
Proof.
  intros H. unfold write_row, descriptor_columns. cbn [fold_left].
  rewrite !columns_loc_set, !has_column_loc_set, !H by reflexivity.
  reflexivity.
Qed.

(** Once the descriptor columns exist the loop adds no column. *)
Lemma for_each_columns_present (labels : list nat) :
  forall t,
    (forall c, is_descriptor c = true -> has_column t c = true) ->
    columns (fst (for_each labels descriptor_row t)) = columns t.
Proof.
  induction labels as [|i rest IH]; intros t H; [reflexivity|].
  simpl. unfold seq_stmt. rewrite descriptor_row_eq.
  destruct (parsed t i) as [m|]; [|reflexivity].
  destruct (for_each rest descriptor_row (write_row i m t)) as [t' r] eqn:E.
  assert (Hrest : columns t' = columns (write_row i m t)).
  { change t' with (fst (t', r)). rewrite <- E. apply IH.
    intros c Hc. rewrite has_column_write_row, Hc. apply orb_true_r. }
  rewrite columns_write_row_present in Hrest by exact H.
  destruct r; exact Hrest.
Qed.

(** The first pass through the loop appends the six columns, in the order
    of the assignments. *)
Lemma for_each_columns_fresh (labels : list nat) (t t' : DataFrame) :
  (forall c, is_descriptor c = true -> has_column t c = false) ->
  labels <> [] ->
  for_each labels descriptor_row t = (t', Ok tt) ->
  columns t' = columns t ++ descriptor_columns.
Proof.
  intros H Hne Hrun. destruct labels as [|i rest]; [contradiction|].
  simpl in Hrun. unfold seq_stmt in Hrun. rewrite descriptor_row_eq in Hrun.
  destruct (parsed t i) as [m|]; [|discriminate Hrun].
  pose proof (for_each_columns_present rest (write_row i m t)) as Hcols.
  destruct (for_each rest descriptor_row (write_row i m t)) as [t1 r].
  destruct r; [|discriminate Hrun]. injection Hrun as <-.
  simpl in Hcols. rewrite Hcols.
  - apply columns_write_row_fresh, H.
  - intros c Hc. rewrite has_column_write_row, Hc. apply orb_true_r.
Qed.

(** What the run of cells 5 and 7 leaves when it succeeds. *)
Lemma feature_table_frame (tmp t' : DataFrame) :
  feature_table tmp = Ok t' ->
  exists table,
    loader tmp = Ok table /\
    descriptor_loop table = (t', Ok tt) /\
    index t' = index table /\
    (forall j c, is_descriptor c = false -> cell t' j c = cell table j c) /\
    (forall c, has_column table c = true -> has_column t' c = true).
Proof.
  unfold feature_table, descriptor_loop.
  destruct (loader tmp) as [table|e] eqn:Hload; simpl; [|discriminate].
  destruct (for_each_descriptor_row (index table) table (tidy_loader _ _ Hload))
    as (t1 & r & Hrun & _ & Hidx & Hframe & Hcols & _).
  rewrite Hrun. destruct r as [[]|e]; [|discriminate].
  intros [= <-]. exists table. repeat split; auto.
Qed.

Lemma feature_table_columns (tmp t' : DataFrame) :
  feature_table tmp = Ok t' ->
  columns t' = required_columns ++ ["BBB_class"] ++ descriptor_columns.
Proof.
  intros Hft.
  destruct (feature_table_frame tmp t' Hft) as (table & Hload & Hrun & _).
  destruct (loader_shape tmp table Hload) as (Hcols & Hseq).
  destruct (loader_ok tmp table Hload) as (_ & Hne).
  unfold descriptor_loop in Hrun.
  rewrite (for_each_columns_fresh (index table) table t').
  - rewrite Hcols, <- app_assoc. reflexivity.
  - intros c Hc. apply (loader_lacks_descriptors tmp table Hload 0 c Hc).
  - rewrite Hseq. destruct (labelled tmp); [contradiction|discriminate].
  - exact Hrun.
Qed.

(** X3: when cells 5 and 7 succeed on at least one labelled record, the
    table is the loader's table with the six descriptor columns appended in
    the order of the assignments: the loader's columns and row labels are
    untouched, and every row holds the six descriptors of its own molecule,
    the rotatable-bond count included. *)
Theorem feature_table_is_augmented (tmp t' : DataFrame) :
  feature_table tmp = Ok t' ->
  labelled tmp <> [] ->
  columns t' = required_columns ++ ["BBB_class"] ++ descriptor_columns /\
  index t' = seq 0 (List.length (labelled tmp)) /\
  forall k, k < List.length (labelled tmp) ->
    let i := nth k (labelled tmp) 0 in
    (forall c, In c required_columns -> cell t' k c = cell tmp i c) /\
    cell t' k "BBB_class" = class_of (cell tmp i "BBB+/BBB-") /\
    exists m, parsed tmp i = Some m /\
              forall c, In c descriptor_columns ->
                        cell t' k c = descriptor_value m c.
Proof.
  intros Hft Hne.
  destruct (feature_table_frame tmp t' Hft)
    as (table & Hload & Hrun & Hidx & Hframe & _).
  destruct (feature_table_inv tmp t' Hft)
    as (table' & Hload' & _ & Hall & Hcells).
  rewrite Hload in Hload'. injection Hload' as <-.
  destruct (loader_shape tmp table Hload) as (Hcols & Hseq).
  split.
  { unfold descriptor_loop in Hrun.
    rewrite (for_each_columns_fresh (index table) table t').
    - rewrite Hcols, <- app_assoc. reflexivity.
    - intros c Hc. apply (loader_lacks_descriptors tmp table Hload 0 c Hc).
    - rewrite Hseq. destruct (labelled tmp); [contradiction|discriminate].
    - exact Hrun. }
  split; [rewrite Hidx; exact Hseq|].
  intros k Hk i.
  assert (Hin : In k (index table)) by (rewrite Hseq; apply in_seq; lia).
  split; [|split].
  - intros c Hc. rewrite Hframe.
    + apply loader_cells; assumption.
    + simpl in Hc. destruct Hc as [<-|[<-|[<-|[<-|[]]]]]; reflexivity.
  - rewrite Hframe by reflexivity. apply loader_class; assumption.
  - rewrite Forall_forall in Hall. specialize (Hall k Hin).
    destruct (parsed table k) as [m|] eqn:Hm; [|congruence].
    exists m. split.
    + unfold i. rewrite <- (parsed_loader tmp table k Hload Hk). exact Hm.
    + intros c Hc. apply Hcells; [exact Hin| |exact Hm].
      simpl in Hc.
      destruct Hc as [<-|[<-|[<-|[<-|[<-|[<-|[]]]]]]]; reflexivity.
Qed.

End AugmentedTable.

Lemma feature_table_is_augmented_witness :
  columns sample_augmented
  = ["compound_name"; "IUPAC_name"; "SMILES"; "BBB+/BBB-"; "BBB_class";
     "MolWt"; "TPSA"; "nRotB"; "HBD"; "HBA"; "LogP"] /\
  index sample_augmented = [0; 1].
Proof.
  destruct (feature_table_is_augmented
              (rdkit := two_alcohols) sample_table sample_augmented)
    as (Hcols & Hidx & _).
  - vm_compute. reflexivity.
  - vm_compute. discriminate.
  - split; [exact Hcols|exact Hidx].
Defined.

(** ** The target vector *)

Lemma target_present (t : DataFrame) (y : list (list value)) :
  target t = Ok y ->
  y = map (fun k => [cell t k "BBB_class"]) (index t).
Proof.
  unfold target, values, loc_columns. simpl.
  destruct (has_column t "BBB_class"); simpl; intros H; [|discriminate H].
  injection H as <-. reflexivity.
Qed.

Lemma as_class_of (v : value) : as_class [class_of v] = Ok (is_permeant v).
Proof.
  unfold class_of, is_permeant. destruct (eq_str v "BBB+"); reflexivity.
Qed.

Lemma traverse_map {A B C : Type} (f : B -> result C) (g : A -> B)
      (h : A -> C) (l : list A) :
  (forall a, In a l -> f (g a) = Ok (h a)) ->
  traverse f (map g l) = Ok (map h l).
Proof.
  induction l as [|a l IH]; intros H; [reflexivity|].
  simpl. rewrite H by (left; reflexivity). simpl.
  rewrite IH by (intros b Hb; apply H; right; exact Hb). reflexivity.
Qed.

Section Target.
Context {rdkit : RDKit}.

(** X1: when cells 5 to 10 succeed, [y] holds one row per retained record,
    in the order of the table, each the single class of that record (1 when
    its permeability value is ["BBB+"], 0 otherwise); it is as long as [x],
    and scikit-learn reads it as that list of classes. *)
Theorem target_is_the_class_column
        (tmp : DataFrame) (x y : list (list value)) :
  x_and_y tmp = Ok (x, y) ->
  y = map (fun i => [class_of (cell tmp i "BBB+/BBB-")]) (labelled tmp) /\
  List.length x = List.length (labelled tmp) /\
  List.length y = List.length x /\
  traverse as_class y
  = Ok (map (fun i => is_permeant (cell tmp i "BBB+/BBB-")) (labelled tmp)).
Proof.
  unfold x_and_y.
  destruct (feature_table tmp) as [t'|e] eqn:Hft; simpl; [|discriminate].
  destruct (features t') as [x'|e] eqn:Hx; simpl; [|discriminate].
  destruct (target t') as [y'|e] eqn:Hy; simpl; [|discriminate].
  intros [= <- <-].
  apply features_present in Hx. apply target_present in Hy.
  destruct (feature_table_frame tmp t' Hft)
    as (table & Hload & _ & Hidx & Hframe & _).
  destruct (loader_shape tmp table Hload) as (_ & Hseq).
  assert (Hyeq : y' = map (fun i => [class_of (cell tmp i "BBB+/BBB-")])
                          (labelled tmp)).
  { rewrite Hy, Hidx, Hseq.
    rewrite <- (map_nth_seq (labelled tmp) 0) at 2. rewrite map_map.
    apply map_ext_in. intros k Hk. apply in_seq in Hk.
    rewrite Hframe by reflexivity.
    rewrite (loader_class tmp table k Hload) by lia. reflexivity. }
  assert (Hxlen : List.length x' = List.length (labelled tmp)).
  { rewrite Hx, length_map, Hidx, Hseq, length_seq. reflexivity. }
  split; [exact Hyeq|]. split; [exact Hxlen|].
  split; [rewrite Hyeq, length_map, Hxlen; reflexivity|].
  rewrite Hyeq. apply traverse_map. intros i _. apply as_class_of.
Qed.

(** X2: the selection of cell 10 never fails.  Whenever cells 5 and 7
    succeed, [x] and [y] are produced, since the loop has then written the
    descriptor columns; so every exception of cells 5 to 10 is raised by the
    loader or by the descriptor loop.  In particular an input whose required
    columns are present but in which no record has a permeability value is
    stopped by the loader, and does not reach the selection. *)
Theorem selection_never_raises (tmp : DataFrame) :
  (forall t', feature_table tmp = Ok t' ->
     exists x y, features t' = Ok x /\ target t' = Ok y /\
                 x_and_y tmp = Ok (x, y)) /\
  (forall e, x_and_y tmp = Raise e -> feature_table tmp = Raise e) /\
  (has_required tmp = true -> labelled tmp = [] ->
   x_and_y tmp =
     Raise (ValueError
              "cannot set a frame with no defined index and a scalar")).
Proof.
  assert (Hsel : forall t', feature_table tmp = Ok t' ->
            exists x y, features t' = Ok x /\ target t' = Ok y).
  { intros t' Hft.
    pose proof (feature_table_columns tmp t' Hft) as Hcols.
    unfold features, target, values, loc_columns, has_column.
    rewrite Hcols. simpl. eexists. eexists. split; reflexivity. }
  split; [|split].
  - intros t' Hft. destruct (Hsel t' Hft) as (x & y & Hx & Hy).
    exists x, y. split; [exact Hx|]. split; [exact Hy|].
    unfold x_and_y. rewrite Hft. simpl. rewrite Hx. simpl. rewrite Hy.
    reflexivity.
  - intros e. unfold x_and_y.
    destruct (feature_table tmp) as [t'|e'] eqn:Hft;
      [|simpl; intros [= ->]; reflexivity].
    destruct (Hsel t' eq_refl) as (x & y & Hx & Hy).
    simpl. rewrite Hx. simpl. rewrite Hy. simpl. discriminate.
  - intros Hreq Hrows. unfold x_and_y, feature_table.
    rewrite (loader_no_record tmp Hreq Hrows). reflexivity.
Qed.

End Target.

Lemma target_is_the_class_column_witness :
  traverse as_class [[Int 1]; [Int 0]] = Ok [true; false].
Proof.
  destruct (target_is_the_class_column
              (rdkit := two_alcohols) sample_table
              [selected_descriptors (rdkit := two_alcohols) ethanol;
               selected_descriptors (rdkit := two_alcohols) butanol]
              [[Int 1]; [Int 0]]) as (_ & _ & _ & H).
  - vm_compute. reflexivity.
  - exact H.
Defined.

(** ** The table after a failed descriptor loop *)

Lemma seq_split (before after : list nat) (i : nat) :
  forall s n,
    seq s n = before ++ i :: after ->
    before = seq s (List.length before) /\ i = s + List.length before.
Proof.
  induction before as [|b before IH]; intros s n H.
  - destruct n; [discriminate H|]. injection H as H _.
    split; [reflexivity|]. simpl. lia.
  - destruct n; [discriminate H|]. injection H as Hb H.
    destruct (IH _ _ H) as (Hbefore & Hi).
    split; [simpl; rewrite <- Hb, <- Hbefore; reflexivity|].
    simpl. lia.
Qed.

Lemma mem_seq (j k : nat) : mem j (seq 0 k) = (j <? k).
Proof.
  unfold mem. destruct (Nat.ltb_spec j k) as [H|H].
  - apply existsb_exists. exists j. split; [apply in_seq; lia|].
    apply Nat.eqb_refl.
  - destruct (existsb (Nat.eqb j) (seq 0 k)) eqn:E; [|reflexivity].
    apply existsb_exists in E. destruct E as (x & Hx & Hjx).
    apply in_seq in Hx. apply Nat.eqb_eq in Hjx. lia.
Qed.

Section HalfWritten.
Context {rdkit : RDKit}.

(** X4: the loop works on the table in place.  When it raises, it does so at
    the first record [k] whose structural identifier is missing or does not
    parse, and the table it leaves behind is half written: the records
    before [k] hold their six descriptors, the record [k] and all later ones
    hold none, and the loader's columns and row labels are as they were. *)
Theorem failed_loop_leaves_table_half_written
        (tmp table t' : DataFrame) (e : exn) :
  loader tmp = Ok table ->
  descriptor_loop table = (t', Raise e) ->
  e = ArgumentError /\
  index t' = index table /\
  (forall j c, is_descriptor c = false -> cell t' j c = cell table j c) /\
  exists k,
    k < List.length (labelled tmp) /\
    parsed table k = None /\
    (forall j, j < k ->
       exists m, parsed table j = Some m /\
                 forall c, is_descriptor c = true ->
                           cell t' j c = descriptor_value m c) /\
    (forall j c, k <= j -> is_descriptor c = true -> cell t' j c = NaN).
Proof.
  intros Hload Hrun.
  destruct (loader_shape tmp table Hload) as (_ & Hseq).
  destruct (for_each_descriptor_row (index table) table (tidy_loader _ _ Hload))
    as (t1 & r & Hrun1 & _ & Hidx & Hframe & _ & Hpost).
  unfold descriptor_loop in Hrun. rewrite Hrun in Hrun1.
  injection Hrun1 as <- <-. simpl in Hpost.
  destruct Hpost as (-> & before & i & after & Hsplit & Hall & Hi & Hcells).
  split; [reflexivity|]. split; [exact Hidx|]. split; [exact Hframe|].
  rewrite Hseq in Hsplit.
  destruct (seq_split before after i _ _ Hsplit) as (Hbefore & Hik).
  simpl in Hik. subst i.
  exists (List.length before).
  split.
  { apply (f_equal (@List.length nat)) in Hsplit.
    rewrite length_seq, length_app in Hsplit. simpl in Hsplit. lia. }
  split; [exact Hi|].
  split.
  - intros j Hj.
    assert (Hjin : In j before) by (rewrite Hbefore; apply in_seq; lia).
    rewrite Forall_forall in Hall. specialize (Hall j Hjin).
    destruct (parsed table j) as [m|] eqn:Hm; [|congruence].
    exists m. split; [reflexivity|].
    intros c Hc. rewrite Hcells by exact Hc. unfold written.
    rewrite Hbefore, mem_seq.
    apply Nat.ltb_lt in Hj. rewrite Hj, Hm. reflexivity.
  - intros j c Hj Hc. rewrite Hcells by exact Hc. unfold written.
    rewrite Hbefore, mem_seq.
    apply Nat.ltb_ge in Hj. rewrite Hj.
    apply (loader_lacks_descriptors tmp table Hload j c Hc).
Qed.

End HalfWritten.

Lemma failed_loop_leaves_table_half_written_witness :
  index broken_state = index broken_loaded /\
  exists k,
    k < List.length (labelled broken_table) /\
    parsed (rdkit := two_alcohols) broken_loaded k = None /\
    forall j c, k <= j -> is_descriptor c = true ->
                cell broken_state j c = NaN.
Proof.
  destruct (failed_loop_leaves_table_half_written
              (rdkit := two_alcohols) broken_table broken_loaded broken_state
              ArgumentError) as (_ & Hidx & _ & k & Hk & Hnone & _ & Hlater).
  - vm_compute. reflexivity.
  - vm_compute. reflexivity.
  - split; [exact Hidx|]. exists k. repeat split; assumption.
Defined.

(** ** The two splits on the data *)

Lemma nth_error_combine {A B : Type} (x : list A) (y : list B) (i : nat) :
  nth_error (combine x y) i =
    match nth_error x i, nth_error y i with
    | Some a, Some b => Some (a, b)
    | _, _ => None
    end.
Proof.
  revert y i. induction x as [|a x IH]; intros y i.
  - destruct i; reflexivity.
  - destruct y as [|b y].
    + destruct i; simpl; [reflexivity|]. destruct (nth_error x i); reflexivity.
    + destruct i; simpl; [reflexivity|apply IH].
Qed.

Lemma take_combine {A B : Type} (x : list A) (y : list B) (ind : list nat) :
  List.length y = List.length x ->
  take (combine x y) ind = combine (take x ind) (take y ind).
Proof.
  intros Hlen. induction ind as [|i ind IH]; [reflexivity|].
  unfold take in *. simpl. rewrite IH, nth_error_combine.
  destruct (nth_error x i) as [a|] eqn:Ex, (nth_error y i) as [b|] eqn:Ey;
    try reflexivity.
  - apply nth_error_None in Ey.
    assert (i < List.length x) by (apply nth_error_Some; congruence). lia.
  - apply nth_error_None in Ex.
    assert (i < List.length y) by (apply nth_error_Some; congruence). lia.
Qed.

Section SplitOnData.
Context {rng : RandomState}.

(** X5: the two splits succeed exactly when [x] and [y] are equally long
    and hold at least three records.  Otherwise the cell raises a
    [ValueError]: for unequal lengths, for fewer than two records at the
    first split (its training set would be empty), and for two records at
    the second split, after the first has succeeded. *)
Theorem split_succeeds_from_three_records {A B : Type}
        (x : list A) (y : list B) :
  ((exists parts, split x y = Ok parts) <->
   List.length y = List.length x /\ 3 <= List.length x) /\
  (List.length y <> List.length x ->
   split x y = Raise (ValueError "inconsistent numbers of samples")) /\
  (List.length y = List.length x -> List.length x < 2 ->
   train_test_split x y (1 # 5)
   = Raise (ValueError "the resulting train set will be empty")) /\
  (List.length y = List.length x -> List.length x = 2 ->
   (exists r, train_test_split x y (1 # 5) = Ok r) /\
   split x y = Raise (ValueError "the resulting train set will be empty")).
Proof.
  split; [|split; [|split]].
  - split.
    + intros (parts & Hrun).
      destruct (Nat.eq_dec (List.length y) (List.length x)) as [Hy|Hy].
      2:{ rewrite (split_mismatch x y Hy) in Hrun. discriminate Hrun. }
      split; [exact Hy|].
      destruct (Nat.lt_ge_cases (List.length x) 3) as [Hlt|Hge]; [|exact Hge].
      rewrite (split_infeasible x y Hy Hlt) in Hrun. discriminate Hrun.
    + intros (Hy & Hn). eexists. apply split_eq; assumption.
  - apply split_mismatch.
  - intros Hy Hn. apply train_test_split_empty; [exact Hy|].
    rewrite n_test_fifth. lia.
  - intros Hy Hn. split.
    + eexists. apply train_test_split_ok; [exact Hy|].
      rewrite n_test_fifth, Hn. simpl. lia.
    + apply split_infeasible; [exact Hy|lia].
Qed.

(** X6: the two splits rearrange the records without losing, repeating or
    re-pairing any: the (features, label) pairs of the three partitions
    together are the pairs of the input, and the partition sizes are
    ceil(N/5) for the test set, the ceiling of a quarter of the rest for the
    validation set and what is left for the training set. *)
Theorem split_keeps_the_pairs {A B : Type}
        (x : list A) (y : list B) (parts : partitions A B) :
  split x y = Ok parts ->
  Permutation (combine (x_train parts) (y_train parts)
               ++ combine (x_valid parts) (y_valid parts)
               ++ combine (x_test parts) (y_test parts))
              (combine x y) /\
  Permutation (x_train parts ++ x_valid parts ++ x_test parts) x /\
  Permutation (y_train parts ++ y_valid parts ++ y_test parts) y /\
  List.length (x_test parts) = (List.length x + 4) / 5 /\
  List.length (x_valid parts)
  = (List.length x - (List.length x + 4) / 5 + 3) / 4 /\
  List.length (y_train parts) = List.length (x_train parts) /\
  List.length (y_valid parts) = List.length (x_valid parts) /\
  List.length (y_test parts) = List.length (x_test parts).
Proof.
  intros Hrun.
  assert (Hok : List.length y = List.length x /\ 3 <= List.length x).
  { destruct (Nat.eq_dec (List.length y) (List.length x)) as [Hy|Hy].
    2:{ rewrite (split_mismatch x y Hy) in Hrun. discriminate Hrun. }
    split; [exact Hy|].
    destruct (Nat.lt_ge_cases (List.length x) 3) as [Hlt|Hge]; [|exact Hge].
    rewrite (split_infeasible x y Hy Hlt) in Hrun. discriminate Hrun. }
  destruct Hok as (Hy & Hn).
  rewrite (split_eq x y Hy Hn) in Hrun. injection Hrun as <-.
  cbn [x_train x_valid x_test y_train y_valid y_test].
  set (n := List.length x).
  pose proof (positions_shuffle n) as Hperm.
  pose proof (positions_bound n) as Hb.
  apply Forall_app in Hb. destruct Hb as [Hbtrain Hb].
  apply Forall_app in Hb. destruct Hb as [Hbvalid Hbtest].
  destruct (positions_sizes n Hn) as (Hlt & Hlv & _).
  assert (Hshuffle : forall (C : Type) (a : list C),
            List.length a = n ->
            Permutation (take a (train_positions n)
                         ++ take a (valid_positions n)
                         ++ take a (test_positions n)) a).
  { intros C a Ha. rewrite <- !take_app. apply take_shuffle.
    rewrite Ha. exact Hperm. }
  assert (Hby : forall l, Forall (fun i => i < n) l ->
                          Forall (fun i => i < List.length y) l).
  { intros l Hl. rewrite Hy. exact Hl. }
  split.
  { rewrite <- !take_combine by exact Hy. apply Hshuffle.
    rewrite length_combine, Hy. apply Nat.min_id. }
  split; [apply Hshuffle; reflexivity|].
  split; [apply Hshuffle; exact Hy|].
  rewrite !take_length by auto.
  repeat split; assumption.
Qed.

End SplitOnData.

Lemma split_keeps_the_pairs_witness :
  exists parts,
    split (rng := reversing) [10; 11; 12; 13; 14] [true; false; true; false; true]
    = Ok parts /\
    Permutation (x_train parts ++ x_valid parts ++ x_test parts)
                [10; 11; 12; 13; 14] /\
    List.length (x_test parts) = 1.
Proof.
  destruct (split (rng := reversing) [10; 11; 12; 13; 14]
                  [true; false; true; false; true]) as [parts|e] eqn:E;
    [|vm_compute in E; discriminate E].
  destruct (split_keeps_the_pairs _ _ parts E) as (_ & Hx & _ & Htest & _).
  exists parts. repeat split; assumption.
Defined.

(** ** The shape of a fitted tree *)

Lemma left_right_length (S : list (sample * bool)) f t :
  List.length (left_of S f t) + List.length (right_of S f t) = List.length S.
Proof.
  unfold left_of, right_of. induction S as [|s S IH]; [reflexivity|].
  simpl. destruct (goes_left f t (fst s)); simpl; lia.
Qed.

Section Shape.
Variable order : visiting.

Lemma build_depth (d : nat) :
  forall path S, depth (build order d path S) <= d.
Proof.
  induction d as [|d IH]; intros path S; [reflexivity|].
  rewrite build_succ.
  destruct ((count_class false S =? 0) || (count_class true S =? 0));
    [simpl; lia|].
  destruct (best_split S (order path)) as [c|]; [|simpl; lia].
  simpl. pose proof (IH (path ++ [false])
                        (left_of S (cand_feature c) (cand_threshold c))).
  pose proof (IH (path ++ [true])
                 (right_of S (cand_feature c) (cand_threshold c))).
  lia.
Qed.

Lemma build_leaf_total (d : nat) :
  forall path S, leaf_total (build order d path S) = List.length S.
Proof.
  induction d as [|d IH]; intros path S.
  - simpl. apply count_class_total.
  - rewrite build_succ.
    destruct ((count_class false S =? 0) || (count_class true S =? 0));
      [apply count_class_total|].
    destruct (best_split S (order path)) as [c|]; [|apply count_class_total].
    simpl. rewrite !IH. apply left_right_length.
Qed.

End Shape.

Lemma fit_inv (order : visiting) (D : nat) (X : list sample) (y : list bool)
      (t : tree) :
  fit order D X y = Ok t ->
  1 <= D /\ List.length y = List.length X /\ X <> [] /\
  t = build order D [] (combine X y).
Proof.
  unfold fit.
  destruct (Nat.eqb_spec D 0) as [|HD]; [discriminate|].
  destruct (Nat.eqb_spec (List.length y) (List.length X)) as [Hy|];
    [|discriminate].
  simpl. destruct X as [|x X]; simpl; [discriminate|].
  intros [= <-]. repeat split; [lia|exact Hy|discriminate].
Qed.

Lemma count_class_combine (c : bool) (X : list sample) (y : list bool) :
  List.length y = List.length X ->
  count_class c (combine X y) = count_label c y.
Proof.
  unfold count_class, count_label. revert y.
  induction X as [|x X IH]; intros [|b y] Hlen; try discriminate; [reflexivity|].
  specialize (IH y ltac:(simpl in Hlen; lia)).
  destruct b, c; simpl; rewrite ?IH; reflexivity.
Qed.

Lemma ratio_le_1 (a n : nat) : a <= n -> n <> 0 -> (ratio a n <= 1)%Q.
Proof.
  intros Ha Hn. unfold ratio, Qle. cbn [Qnum Qden].
  assert (Hpos : Z.pos (Pos.of_nat n) = Z.of_nat n).
  { rewrite <- positive_nat_Z, Nat2Pos.id by exact Hn. reflexivity. }
  rewrite Hpos. lia.
Qed.

Lemma ratio_nonneg (a n : nat) : (0 <= ratio a n)%Q.
Proof. unfold ratio, Qle. cbn [Qnum Qden]. lia. Qed.

(** X7: a fitted tree is no deeper than [max_depth], and its leaves count
    every training sample once: the counts stored in the leaves add up to
    the size of the training set. *)
Theorem fit_respects_max_depth
        (order : visiting) (D : nat) (X : list sample) (y : list bool)
        (t : tree) :
  fit order D X y = Ok t ->
  depth t <= D /\ leaf_total t = List.length X.
Proof.
  intros H. apply fit_inv in H. destruct H as (_ & Hy & _ & ->).
  split; [apply build_depth|].
  rewrite build_leaf_total, length_combine, Hy. apply Nat.min_id.
Qed.

Lemma fit_respects_max_depth_witness :
  exists t,
    fit third_feature_first 3 (map fst twenty_four) (map snd twenty_four) = Ok t /\
    depth t <= 3 /\ leaf_total t = 24.
Proof.
  destruct (fit third_feature_first 3 (map fst twenty_four)
                (map snd twenty_four)) as [t|e] eqn:E;
    [|vm_compute in E; discriminate E].
  destruct (fit_respects_max_depth _ _ _ _ t E) as (Hd & Hl).
  exists t. repeat split; assumption.
Defined.

(** X8: on its own training set a fitted tree is right at least as often as
    the constant prediction of the majority class, and its accuracy is a
    number between that baseline and 1. *)
Theorem training_accuracy_beats_majority
        (order : visiting) (D : nat) (X : list sample) (y : list bool)
        (t : tree) :
  fit order D X y = Ok t ->
  Nat.max (count_label false y) (count_label true y)
  <= correct t (combine X y) /\
  correct t (combine X y) <= List.length X /\
  exists a,
    score t X y = Ok (Num a) /\
    (ratio (Nat.max (count_label false y) (count_label true y))
           (List.length X) <= a)%Q /\
    (a <= 1)%Q.
Proof.
  intros H. apply fit_inv in H. destruct H as (_ & Hy & HX & ->).
  set (t := build order D [] (combine X y)).
  assert (Hlow : Nat.max (count_label false y) (count_label true y)
                 <= correct t (combine X y)).
  { rewrite <- !(count_class_combine _ X y Hy). apply build_beats_majority. }
  assert (Hhigh : correct t (combine X y) <= List.length X).
  { etransitivity; [apply correct_bound|].
    rewrite length_combine, Hy, Nat.min_id. reflexivity. }
  split; [exact Hlow|]. split; [exact Hhigh|].
  assert (Hne : List.length X <> 0)
    by (destruct X; [contradiction|discriminate]).
  rewrite score_ok by assumption.
  eexists. split; [reflexivity|]. split; [apply ratio_le, Hlow|].
  apply ratio_le_1; assumption.
Qed.

Lemma training_accuracy_beats_majority_witness :
  exists t,
    fit third_feature_first 3 (map fst twenty_four) (map snd twenty_four) = Ok t /\
    12 <= correct t twenty_four.
Proof.
  destruct (fit third_feature_first 3 (map fst twenty_four)
                (map snd twenty_four)) as [t|e] eqn:E;
    [|vm_compute in E; discriminate E].
  destruct (training_accuracy_beats_majority _ _ _ _ t E) as (Hlow & _).
  exists t. split; [reflexivity|]. exact Hlow.
Defined.

(** ** The sweep over the depths *)

Lemma float32_exact_0 : float32_exact 0.
Proof. exists 0%Z, 0%Z. repeat split; try lia. Qed.

Lemma float32_exact_1 : float32_exact 1.
Proof. exists 1%Z, 0%Z. repeat split; try lia. Qed.

Section Sweep.
Variable orders : nat -> visiting.
Variables (X_train : list sample) (y_train : list bool).
Variables (X_valid : list sample) (y_valid : list bool).

(** One pass of the loop of cell 18. *)
Let step (score_list : result (list float)) (maxd : nat)
  : result (list float) :=
  score_list <- score_list ;;
  clf <- fit (orders maxd) maxd X_train y_train ;;
  s <- score clf X_valid y_valid ;;
  Ok (score_list ++ [s]).

(** The validation accuracy of the tree fit at a depth. *)
Let accuracy_at (d : nat) : float :=
  Num (ratio (correct (build (orders d) d [] (combine X_train y_train))
                      (combine X_valid y_valid))
             (List.length X_valid)).

Lemma sweep_raised (depths : list nat) (e : exn) :
  fold_left step depths (Raise e) = Raise e.
Proof. induction depths as [|d depths IH]; [reflexivity|exact IH]. Qed.

Lemma sweep_steps (depths : list nat) :
  List.length y_train = List.length X_train ->
  X_train <> [] ->
  List.length y_valid = List.length X_valid ->
  X_valid <> [] ->
  Forall (fun d => 1 <= d) depths ->
  forall acc,
    fold_left step depths (Ok acc) = Ok (acc ++ map accuracy_at depths).
Proof.
  intros Hy HX Hyv HXv. induction 1 as [|d depths Hd _ IH]; intros acc.
  - simpl. rewrite app_nil_r. reflexivity.
  - assert (Hstep : step (Ok acc) d = Ok (acc ++ [accuracy_at d])).
    { unfold step. cbn [bind].
      rewrite (fit_ok (orders d) d X_train y_train Hd Hy HX). cbn [bind].
      rewrite (score_ok _ X_valid y_valid Hyv HXv). reflexivity. }
    cbn [fold_left map]. rewrite Hstep, IH, <- app_assoc. reflexivity.
Qed.

(** Every pass that does not raise appends one score. *)
Lemma sweep_passes (depths : list nat) :
  forall acc scores,
    fold_left step depths (Ok acc) = Ok scores ->
    List.length scores = List.length acc + List.length depths.
Proof.
  induction depths as [|d depths IH]; intros acc scores H.
  - injection H as <-. simpl. lia.
  - cbn [fold_left] in H.
    destruct (step (Ok acc) d) as [acc'|e] eqn:Hstep.
    + rewrite (IH acc' scores H). unfold step in Hstep. cbn [bind] in Hstep.
      destruct (fit (orders d) d X_train y_train); [|discriminate Hstep].
      cbn [bind] in Hstep.
      destruct (score _ X_valid y_valid); [|discriminate Hstep].
      injection Hstep as <-. rewrite length_app. simpl. lia.
    + rewrite sweep_raised in H. discriminate H.
Qed.

Lemma sweep_length (scores : list float) :
  sweep orders X_train y_train X_valid y_valid = Ok scores ->
  List.length scores = 24.
Proof. intros H. apply (sweep_passes (seq 1 24) [] scores H). Qed.

(** The first pass raises when the training set or the validation set is
    empty, or has labels and samples in different numbers. *)
Lemma sweep_first_pass :
  X_train = [] \/ List.length y_train <> List.length X_train \/
  X_valid = [] \/ List.length y_valid <> List.length X_valid ->
  exists msg, step (Ok []) 1 = Raise (ValueError msg).
Proof.
  intros H. unfold step. cbn [bind].
  destruct X_train as [|x X] eqn:EX.
  { unfold fit. cbn [Nat.eqb List.length].
    destruct (List.length y_train =? 0); eexists; reflexivity. }
  destruct (Nat.eq_dec (List.length y_train) (List.length (x :: X)))
    as [Hy|Hy].
  - rewrite (fit_ok (orders 1) 1 (x :: X) y_train (le_n 1) Hy)
      by discriminate.
    cbn [bind].
    destruct (score_raises (build (orders 1) 1 [] (combine (x :: X) y_train))
                           X_valid y_valid) as (msg & Hmsg).
    + destruct H as [H|[H|[H|H]]];
        [discriminate H|contradiction|left; exact H|right; exact H].
    + rewrite Hmsg. exists msg. reflexivity.
  - unfold fit. cbn [Nat.eqb].
    apply Nat.eqb_neq in Hy. rewrite Hy. eexists. reflexivity.
Qed.


End Sweep.


(** ** Accuracy and the confusion matrix *)

Lemma correct_as_pairs (t : tree) (X : list sample) (y : list bool) :
  correct t (combine X y)
  = count_pair true true y (predict t X)
    + count_pair false false y (predict t X).
Proof.
  unfold correct, count_pair, predict. revert y.
  induction X as [|x X IH]; intros [|b y]; try reflexivity.
  simpl. specialize (IH y).
  destruct (predict_one t x), b; simpl; lia.
Qed.

Lemma predict_length (t : tree) (X : list sample) :
  List.length (predict t X) = List.length X.
Proof. apply length_map. Qed.

(** X10: the accuracy printed for the final model and the confusion matrix
    of its predictions agree: whenever the evaluator reports on the
    predictions of a tree for [X] against the labels [y], the score of the
    tree on [X] and [y] is (TP + TN) / N, and the predictions the tree gets
    wrong are the FP + FN others. *)
Theorem score_is_the_matrix_diagonal
        (t : tree) (X : list sample) (y : list bool) (rep : report) :
  evaluator y (predict t X) = Ok rep ->
  List.length X = List.length y /\
  correct t (combine X y) = tp rep + tn rep /\
  List.length X - correct t (combine X y) = fp rep + fn rep /\
  score t X y = Ok (Num (ratio (tp rep + tn rep) (List.length y))).
Proof.
  intros H.
  pose proof (evaluator_inv _ _ _ H) as Hinv.
  destruct Hinv as (Hlen & Hlabels & Htn & Hfp & Hfn & Htp & _).
  rewrite predict_length in Hlen.
  assert (Hcorrect : correct t (combine X y) = tp rep + tn rep).
  { rewrite correct_as_pairs, Htp, Htn. reflexivity. }
  pose proof (count_pair_total y (predict t X)) as Htotal.
  rewrite length_combine, predict_length, <- Hlen, Nat.min_id in Htotal.
  split; [symmetry; exact Hlen|]. split; [exact Hcorrect|].
  split; [rewrite Hcorrect, Htp, Htn, Hfp, Hfn, <- Hlen; lia|].
  rewrite score_ok, Hcorrect, Hlen; [reflexivity|exact Hlen|].
  intros ->. destruct y; [|discriminate Hlen]. discriminate Hlabels.
Qed.

Lemma score_is_the_matrix_diagonal_witness :
  exists t rep,
    fit first_feature_first 1 two_compounds two_classes = Ok t /\
    evaluator [false; true; true] (predict t (two_compounds ++ [query]))
    = Ok rep /\
    score t (two_compounds ++ [query]) [false; true; true]
    = Ok (Num (ratio (tp rep + tn rep) 3)).
Proof.
  destruct (fit first_feature_first 1 two_compounds two_classes)
    as [t|e] eqn:Et; [|vm_compute in Et; discriminate Et].
  destruct (evaluator [false; true; true]
                      (predict t (two_compounds ++ [query])))
    as [rep|e] eqn:Er;
    [|vm_compute in Et; injection Et as <-; vm_compute in Er; discriminate Er].
  destruct (score_is_the_matrix_diagonal t _ _ rep Er) as (_ & _ & _ & Hs).
  exists t, rep. repeat split; assumption.
Defined.

(** ** When the evaluator reports *)

Lemma unique_labels_both (y_true y_pred : list bool) :
  unique_labels y_true y_pred = [false; true] <->
  In false (y_true ++ y_pred) /\ In true (y_true ++ y_pred).
Proof.
  unfold unique_labels. cbn [filter].
  destruct (existsb (Bool.eqb false) (y_true ++ y_pred)) eqn:E0,
           (existsb (Bool.eqb true) (y_true ++ y_pred)) eqn:E1.
  - apply existsb_exists in E0, E1.
    destruct E0 as ([] & H0 & E0), E1 as ([] & H1 & E1);
      try discriminate. tauto.
  - split; [discriminate|]. intros (_ & H).
    assert (existsb (Bool.eqb true) (y_true ++ y_pred) = true)
      by (apply existsb_exists; exists true; auto).
    congruence.
  - split; [discriminate|]. intros (H & _).
    assert (existsb (Bool.eqb false) (y_true ++ y_pred) = true)
      by (apply existsb_exists; exists false; auto).
    congruence.
  - split; [discriminate|]. intros (H & _).
    assert (existsb (Bool.eqb false) (y_true ++ y_pred) = true)
      by (apply existsb_exists; exists false; auto).
    congruence.
Qed.

(** X11: the evaluator reports exactly when the two label lists are equally
    long and both classes occur among the true and predicted labels
    together; then the four cells are the four counts and add up to the
    number of samples.  In every other case the cells raise a [ValueError]:
    the lists are refused, or the matrix does not have four cells. *)
Theorem evaluator_reports_iff_both_classes (y_true y_pred : list bool) :
  ((exists rep, evaluator y_true y_pred = Ok rep) <->
   List.length y_true = List.length y_pred /\
   In false (y_true ++ y_pred) /\ In true (y_true ++ y_pred)) /\
  (forall rep, evaluator y_true y_pred = Ok rep ->
     tn rep = count_pair false false y_true y_pred /\
     fp rep = count_pair false true y_true y_pred /\
     fn rep = count_pair true false y_true y_pred /\
     tp rep = count_pair true true y_true y_pred /\
     tn rep + fp rep + fn rep + tp rep = List.length y_true) /\
  (forall e, evaluator y_true y_pred = Raise e -> exists msg, e = ValueError msg).
Proof.
  split; [|split].
  - rewrite <- unique_labels_both. split.
    + intros (rep & H). apply evaluator_inv in H. tauto.
    + intros (Hlen & Hlabels). apply evaluator_two_labels; assumption.
  - intros rep H. apply evaluator_inv in H.
    destruct H as (Hlen & _ & -> & -> & -> & -> & _).
    repeat split.
    pose proof (count_pair_total y_true y_pred) as Ht.
    rewrite length_combine, <- Hlen, Nat.min_id in Ht. exact Ht.
  - intros e. unfold evaluator, confusion_matrix.
    destruct (negb (List.length y_true =? List.length y_pred));
      cbn [bind]; [intros [= <-]; eexists; reflexivity|].
    destruct (List.length y_true =? 0);
      cbn [bind]; [intros [= <-]; eexists; reflexivity|].
    destruct (ravel _) as [|a [|b [|c [|d [|]]]]];
      try (intros [= <-]; eexists; reflexivity).
    destruct (precision_score warn y_true y_pred),
             (recall_score warn y_true y_pred). discriminate.
Qed.

(** X12: the precision and the recall the evaluator reports are numbers
    between 0 and 1, never NaN. *)
Theorem precision_and_recall_are_fractions
        (y_true y_pred : list bool) (rep : report) :
  evaluator y_true y_pred = Ok rep ->
  exists p r,
    precision rep = Num p /\ recall rep = Num r /\
    (0 <= p)%Q /\ (p <= 1)%Q /\ (0 <= r)%Q /\ (r <= 1)%Q.
Proof.
  intros H. apply evaluator_inv in H.
  destruct H as (_ & _ & _ & _ & _ & _ & -> & -> & _).
  unfold precision_score, recall_score, prf_divide.
  set (tp := count_pair true true y_true y_pred).
  set (fp := count_pair false true y_true y_pred).
  set (fn := count_pair true false y_true y_pred).
  assert (Hzero : (0 <= 0)%Q /\ (0 <= 1)%Q) by (split; discriminate).
  destruct (Nat.eqb_spec (tp + fp) 0) as [Ep|Ep],
           (Nat.eqb_spec (tp + fn) 0) as [Er|Er];
    cbn [fst]; eexists; eexists;
    (split; [reflexivity|]); (split; [reflexivity|]);
    repeat split;
    try apply ratio_nonneg; try (apply ratio_le_1; lia);
    try apply Hzero.
Qed.

Lemma precision_and_recall_are_fractions_witness :
  exists p r,
    (0 <= p)%Q /\ (p <= 1)%Q /\ (0 <= r)%Q /\ (r <= 1)%Q /\
    fst (precision_score warn [false; true; true] [true; true; false]) = Num p /\
    fst (recall_score warn [false; true; true] [true; true; false]) = Num r.
Proof.
  destruct (evaluator [false; true; true] [true; true; false])
    as [rep|e] eqn:E; [|vm_compute in E; discriminate E].
  destruct (precision_and_recall_are_fractions _ _ rep E)
    as (p & r & Hp & Hr & H0 & H1 & H2 & H3).
  exists p, r. repeat split; try assumption.
  - rewrite <- Hp. vm_compute in E. injection E as <-. reflexivity.
  - rewrite <- Hr. vm_compute in E. injection E as <-. reflexivity.
Defined.

(** ** The scan over the splits of a node *)

Lemma scan_from (cands : list candidate) :
  forall b c,
    scan cands (Some b) = Some c ->
    (c = b /\ forall c', In c' cands -> (cand_cost b <= cand_cost c')%Q) \/
    (exists l1 l2,
       cands = l1 ++ c :: l2 /\
       (cand_cost c < cand_cost b)%Q /\
       (forall c', In c' l1 -> (cand_cost c < cand_cost c')%Q) /\
       (forall c', In c' l2 -> (cand_cost c <= cand_cost c')%Q)).
Proof.
  induction cands as [|x cands IH]; intros b c H.
  - injection H as <-. left. split; [reflexivity|]. intros c' [].
  - simpl in H. destruct (Qlt_bool (cand_cost x) (cand_cost b)) eqn:E.
    + apply Qlt_bool_iff in E. right.
      destruct (IH x c H) as [(-> & Hall)|(l1 & l2 & -> & Hlt & H1 & H2)].
      * exists [], cands. repeat split; auto. intros c' [].
      * exists (x :: l1), l2. split; [reflexivity|].
        split; [eapply Qlt_trans; eassumption|].
        split; [|exact H2].
        intros c' [<-|Hc']; [exact Hlt|apply H1, Hc'].
    + assert (Hle : (cand_cost b <= cand_cost x)%Q).
      { apply Qnot_lt_le. intros Hlt. apply Qlt_bool_iff in Hlt. congruence. }
      destruct (IH b c H) as [(-> & Hall)|(l1 & l2 & -> & Hlt & H1 & H2)].
      * left. split; [reflexivity|].
        intros c' [<-|Hc']; [exact Hle|apply Hall, Hc'].
      * right. exists (x :: l1), l2. split; [reflexivity|].
        split; [exact Hlt|]. split; [|exact H2].
        intros c' [<-|Hc']; [|apply H1, Hc'].
        eapply Qlt_le_trans; eassumption.
Qed.

Lemma scan_first_best (cands : list candidate) (c : candidate) :
  scan cands None = Some c ->
  exists l1 l2,
    cands = l1 ++ c :: l2 /\
    (forall c', In c' l1 -> (cand_cost c < cand_cost c')%Q) /\
    (forall c', In c' l2 -> (cand_cost c <= cand_cost c')%Q).
Proof.
  destruct cands as [|x cands]; [discriminate|]. simpl. intros H.
  destruct (scan_from cands x c H) as [(-> & Hall)|(l1 & l2 & -> & Hlt & H1 & H2)].
  - exists [], cands. repeat split; auto. intros c' [].
  - exists (x :: l1), l2. split; [reflexivity|]. split; [|exact H2].
    intros c' [<-|Hc']; [exact Hlt|apply H1, Hc'].
Qed.

Lemma scan_some (cands : list candidate) (b : candidate) :
  exists c, scan cands (Some b) = Some c.
Proof.
  revert b. induction cands as [|x cands IH]; intros b; [eexists; reflexivity|].
  simpl. destruct (Qlt_bool (cand_cost x) (cand_cost b)); apply IH.
Qed.

Lemma scan_none (cands : list candidate) :
  scan cands None = None -> cands = [].
Proof.
  destruct cands as [|x cands]; [reflexivity|]. simpl. intros H.
  destruct (scan_some cands x) as (c & Hc). rewrite Hc in H. discriminate H.
Qed.

Lemma candidate_inv (S : list (sample * bool)) (visit : list nat)
      (c : candidate) :
  In c (candidates S visit) ->
  In (cand_feature c) visit /\
  In (cand_threshold c) (thresholds S (cand_feature c)) /\
  cand_cost c = split_cost S (cand_feature c) (cand_threshold c).
Proof.
  unfold candidates. intros H. apply in_flat_map in H.
  destruct H as (f & Hf & H). apply in_map_iff in H.
  destruct H as (t & <- & Ht). simpl. auto.
Qed.


(** ** The run as a whole *)

Lemma traverse_length {A B : Type} (f : A -> result B) (l : list A) :
  forall l', traverse f l = Ok l' -> List.length l' = List.length l.
Proof.
  induction l as [|a l IH]; intros l' H.
  - injection H as <-. reflexivity.
  - simpl in H. destruct (f a) as [b|e]; [|discriminate H]. simpl in H.
    destruct (traverse f l) as [bs|e]; [|discriminate H]. simpl in H.
    injection H as <-. simpl. rewrite (IH bs); reflexivity.
Qed.

Lemma x_and_y_lengths {rdkit : RDKit} (tmp : DataFrame)
      (x y : list (list value)) :
  x_and_y tmp = Ok (x, y) ->
  List.length x = List.length (labelled tmp) /\
  List.length y = List.length (labelled tmp).
Proof.
  unfold x_and_y.
  destruct (feature_table tmp) as [t'|e] eqn:Hft; simpl; [|discriminate].
  destruct (features t') as [x'|e] eqn:Hx; simpl; [|discriminate].
  destruct (target t') as [y'|e] eqn:Hy; simpl; [|discriminate].
  intros [= <- <-].
  apply features_present in Hx. apply target_present in Hy.
  destruct (feature_table_frame tmp t' Hft) as (table & Hload & _ & Hidx & _).
  destruct (loader_shape tmp table Hload) as (_ & Hseq).
  rewrite Hx, Hy, !length_map, Hidx, Hseq, length_seq. split; reflexivity.
Qed.

Lemma split_test_size {rng : RandomState} {A B : Type}
      (x : list A) (y : list B) (parts : partitions A B) :
  split x y = Ok parts ->
  List.length y = List.length x /\ 3 <= List.length x /\
  List.length (x_test parts) = (List.length x + 4) / 5 /\
  List.length (y_test parts) = (List.length x + 4) / 5.
Proof.
  intros Hrun.
  destruct (Nat.eq_dec (List.length y) (List.length x)) as [Hy|Hy].
  2:{ rewrite (split_mismatch x y Hy) in Hrun. discriminate Hrun. }
  destruct (Nat.lt_ge_cases (List.length x) 3) as [Hlt|Hn].
  { rewrite (split_infeasible x y Hy Hlt) in Hrun. discriminate Hrun. }
  rewrite (split_eq x y Hy Hn) in Hrun. injection Hrun as <-.
  cbn [x_test y_test].
  pose proof (positions_bound (List.length x)) as Hb.
  apply Forall_app in Hb. destruct Hb as [_ Hb].
  apply Forall_app in Hb. destruct Hb as [_ Hbtest].
  destruct (positions_sizes (List.length x) Hn) as (Hlt & _).
  rewrite !take_length; auto. rewrite Hy. exact Hbtest.
Qed.

Section WholeRun.
Context {rdkit : RDKit} {rng : RandomState}.

(** X14: when the whole notebook runs to its end on a table with N
    labelled records, N is at least 3, the sweep has produced 24 scores,
    the final model has predicted the ceil(N/5) records of the test set,
    the four cells of the confusion matrix add up to that number, and the
    test accuracy printed for the final model is (TP + TN) over it. *)
Theorem notebook_run_to_the_end (d : draws) (tmp : DataFrame) (out : output) :
  notebook d tmp = Ok out ->
  let N := List.length (labelled tmp) in
  let n_test := (N + 4) / 5 in
  3 <= N /\
  List.length (score_list out) = 24 /\
  List.length (prediction out) = n_test /\
  tn (metrics out) + fp (metrics out) + fn (metrics out) + tp (metrics out)
  = n_test /\
  test_score_depth_20 out
  = Num (ratio (tp (metrics out) + tn (metrics out)) n_test).
Proof.
  unfold notebook. intros H. cbv zeta.
  destruct (x_and_y tmp) as [[x y]|e] eqn:Hxy; [|discriminate H].
  cbn [bind fst snd] in H.
  destruct (traverse as_sample x) as [X|e] eqn:HX; [|discriminate H].
  cbn [bind] in H.
  destruct (traverse as_class y) as [Y|e] eqn:HY; [|discriminate H].
  cbn [bind] in H.
  destruct (split X Y) as [parts|e] eqn:Hsplit; [|discriminate H].
  cbn [bind] in H.
  destruct (fit (first_fit d) 3 (x_train parts) (y_train parts))
    as [clf3|e] eqn:Hfit3; [|discriminate H].
  cbn [bind] in H.
  destruct (score clf3 (x_valid parts) (y_valid parts))
    as [s3|e] eqn:Hs3; [|discriminate H].
  cbn [bind] in H.
  destruct (sweep (sweep_fits d) (x_train parts) (y_train parts)
                  (x_valid parts) (y_valid parts))
    as [scores|e] eqn:Hsweep; [|discriminate H].
  cbn [bind] in H.
  destruct (fit (final_fit d) 20 (x_train parts) (y_train parts))
    as [clf|e] eqn:Hfit; [|discriminate H].
  cbn [bind] in H.
  destruct (score clf (x_test parts) (y_test parts))
    as [s20|e] eqn:Hs20; [|discriminate H].
  cbn [bind] in H.
  destruct (evaluator (y_test parts) (predict clf (x_test parts)))
    as [rep|e] eqn:Heval; [|discriminate H].
  cbn [bind] in H. injection H as <-.
  cbn [score_list prediction metrics test_score_depth_20].
  destruct (x_and_y_lengths tmp x y Hxy) as (Hlx & _).
  pose proof (traverse_length _ _ _ HX) as HlX.
  destruct (split_test_size X Y parts Hsplit) as (_ & Hn & Htest & Hytest).
  rewrite HlX, Hlx in Hn, Htest, Hytest.
  destruct (fit_inv _ _ _ _ _ Hfit3) as (_ & Hly & Hne & _).
  set (N := List.length (labelled tmp)) in *.
  set (n_test := (N + 4) / 5) in *.
  split; [exact Hn|].
  split; [exact (sweep_length _ _ _ _ _ _ Hsweep)|].
  split; [rewrite predict_length; exact Htest|].
  pose proof (evaluator_inv _ _ _ Heval)
    as (_ & _ & Htn & Hfp & Hfn & Htp & _).
  pose proof (count_pair_total (y_test parts) (predict clf (x_test parts)))
    as Htotal.
  rewrite length_combine, predict_length, Htest, Hytest, Nat.min_id in Htotal.
  split; [rewrite Htn, Hfp, Hfn, Htp; exact Htotal|].
  rewrite score_ok in Hs20.
  - assert (Hscore : forall a b : float, Ok a = Ok b -> b = a)
      by (intros a b [= ->]; reflexivity).
    rewrite (Hscore _ _ Hs20), correct_as_pairs, <- Htp, <- Htn, Htest.
    reflexivity.
  - rewrite Htest, Hytest. reflexivity.
  - intros E. rewrite E in Htest. simpl in Htest. unfold n_test in Htest. lia.
Qed.

End WholeRun.

Lemma notebook_run_to_the_end_witness :
  exists out,
    notebook (rdkit := two_alcohols) (rng := reversing)
             in_feature_order ten_compounds = Ok out /\
    List.length (score_list out) = 24 /\
    List.length (prediction out) = 2.
Proof.
  destruct (notebook (rdkit := two_alcohols) (rng := reversing)
                     in_feature_order ten_compounds) as [out|e] eqn:E;
    [|vm_compute in E; discriminate E].
  destruct (notebook_run_to_the_end _ _ out E) as (_ & Hs & Hp & _).
  exists out. split; [reflexivity|]. split; [exact Hs|exact Hp].
Defined.

(** ** Enough depth to memorise the training set *)

Lemma insert_value_in (v : Q) (l : list Q) (w : Q) :
  In w (insert_value v l) -> w = v \/ In w l.
Proof.
  induction l as [|x l IH]; simpl.
  - intros [<-|[]]. left. reflexivity.
  - destruct (Qeq_bool v x); [auto|].
    destruct (Qle_bool v x).
    + intros [<-|H]; auto.
    + intros [<-|H]; [right; left; reflexivity|].
      destruct (IH H); auto.
Qed.

Lemma insert_value_covers (v : Q) (l : list Q) :
  (exists w, In w (insert_value v l) /\ (v == w)%Q) /\
  (forall x, In x l -> In x (insert_value v l)).
Proof.
  induction l as [|x l (IHv & IHl)]; simpl.
  - split; [exists v; split; [left; reflexivity|reflexivity]|intros x []].
  - destruct (Qeq_bool v x) eqn:E.
    + apply Qeq_bool_iff in E. split; [exists x; split; [left; reflexivity|exact E]|auto].
    + destruct (Qle_bool v x).
      * split; [exists v; split; [left; reflexivity|reflexivity]|].
        intros y Hy. right. exact Hy.
      * destruct IHv as (w & Hw & Hvw).
        split; [exists w; split; [right; exact Hw|exact Hvw]|].
        intros y [<-|Hy]; [left; reflexivity|right; apply IHl, Hy].
Qed.

Lemma insert_value_sorted (v : Q) (l : list Q) :
  LocallySorted Qlt l -> LocallySorted Qlt (insert_value v l).
Proof.
  induction 1 as [|x|x y l Hsorted IH Hxy]; simpl.
  - constructor.
  - destruct (Qeq_bool v x) eqn:E; [constructor|].
    destruct (Qle_bool v x) eqn:L.
    + constructor; [constructor|].
      apply Qle_bool_iff in L. apply Qle_lteq in L. destruct L as [L|L]; [exact L|].
      apply Qeq_bool_iff in L. congruence.
    + constructor; [constructor|].
      apply Qnot_le_lt. intros H. apply Qle_bool_iff in H. congruence.
  - destruct (Qeq_bool v x) eqn:E; [constructor; assumption|].
    destruct (Qle_bool v x) eqn:L.
    + constructor; [constructor; assumption|].
      apply Qle_bool_iff in L. apply Qle_lteq in L. destruct L as [L|L]; [exact L|].
      apply Qeq_bool_iff in L. congruence.
    + assert (Hxv : (x < v)%Q).
      { apply Qnot_le_lt. intros H. apply Qle_bool_iff in H. congruence. }
      simpl in IH.
      destruct (Qeq_bool v y) eqn:E'; [constructor; assumption|].
      destruct (Qle_bool v y) eqn:L'.
      * constructor; [exact IH|exact Hxv].
      * constructor; [exact IH|exact Hxy].
Qed.

Lemma distinct_sorted_sorted (l : list Q) : LocallySorted Qlt (distinct_sorted l).
Proof.
  induction l as [|v l IH]; simpl; [constructor|].
  apply insert_value_sorted, IH.
Qed.

Lemma distinct_sorted_in (l : list Q) (w : Q) :
  In w (distinct_sorted l) -> In w l.
Proof.
  induction l as [|v l IH]; simpl; [auto|].
  intros H. apply insert_value_in in H. destruct H as [->|H]; auto.
Qed.

Lemma distinct_sorted_covers (l : list Q) (v : Q) :
  In v l -> exists w, In w (distinct_sorted l) /\ (v == w)%Q.
Proof.
  induction l as [|x l IH]; simpl; [intros []|].
  destruct (insert_value_covers x (distinct_sorted l)) as (Hx & Hl).
  intros [<-|Hv]; [exact Hx|].
  destruct (IH Hv) as (w & Hw & Hvw). exists w. split; [apply Hl, Hw|exact Hvw].
Qed.

Lemma sorted_head_lt (x : Q) (l : list Q) :
  LocallySorted Qlt (x :: l) -> forall v, In v l -> (x < v)%Q.
Proof.
  revert x. induction l as [|y l IH]; intros x H v; [intros []|].
  inversion H as [| |? ? ? Htail Hxy]; subst.
  intros [<-|Hv]; [exact Hxy|].
  apply Qlt_trans with y; [exact Hxy|]. apply IH; assumption.
Qed.

(** A threshold lies strictly between two consecutive values of the sorted
    list, more than [FEATURE_THRESHOLD] apart. *)
Lemma midpoints_in (l : list Q) (t : Q) :
  LocallySorted Qlt l -> In t (midpoints l) ->
  exists a b,
    In a l /\ In b l /\ (a < t)%Q /\ (t < b)%Q /\
    (a + FEATURE_THRESHOLD < b)%Q /\
    forall v, In v l -> (v <= a)%Q \/ (b <= v)%Q.
Proof.
  induction 1 as [|x|x y l Hsorted IH Hxy].
  - intros [].
  - intros [].
  - assert (Htail : In t (midpoints (y :: l)) ->
              exists a b,
                In a (x :: y :: l) /\ In b (x :: y :: l) /\
                (a < t)%Q /\ (t < b)%Q /\ (a + FEATURE_THRESHOLD < b)%Q /\
                forall v, In v (x :: y :: l) -> (v <= a)%Q \/ (b <= v)%Q).
    { intros Ht. destruct (IH Ht) as (a & b & Ha & Hb & H1 & H2 & H3 & H4).
      exists a, b. split; [right; exact Ha|]. split; [right; exact Hb|].
      split; [exact H1|]. split; [exact H2|]. split; [exact H3|].
      intros v [<-|Hv]; [|apply H4, Hv].
      left. apply Qlt_le_weak.
      destruct Ha as [<-|Ha]; [exact Hxy|].
      apply Qlt_trans with y; [exact Hxy|].
      apply (sorted_head_lt y l Hsorted a Ha). }
    cbn [midpoints].
    destruct (Qle_bool y (x + FEATURE_THRESHOLD)) eqn:E; [exact Htail|].
    intros [<-|Ht]; [|exact (Htail Ht)].
    exists x, y. split; [left; reflexivity|].
    split; [right; left; reflexivity|].
    split; [apply Qlt_shift_div_l; [reflexivity|]; Lqa.lra|].
    split; [apply Qlt_shift_div_r; [reflexivity|]; Lqa.lra|].
    split.
    + apply Qnot_le_lt. intros H. apply Qle_bool_iff in H. congruence.
    + intros v [<-|[<-|Hv]].
      * left. apply Qle_refl.
      * right. apply Qle_refl.
      * right. apply Qlt_le_weak. apply (sorted_head_lt y l Hsorted v Hv).
Qed.

(** Two values more than [FEATURE_THRESHOLD] apart at the head of the
    sorted list are split. *)
Lemma midpoints_nonempty (x y : Q) (l : list Q) :
  (x + FEATURE_THRESHOLD < y)%Q -> midpoints (x :: y :: l) <> [].
Proof.
  intros H. cbn [midpoints].
  destruct (Qle_bool y (x + FEATURE_THRESHOLD)) eqn:E; [|discriminate].
  apply Qle_bool_iff in E. exfalso. exact (Qlt_not_le _ _ H E).
Qed.

Lemma midpoints_constant (l : list Q) :
  List.length l <= 1 -> midpoints l = [].
Proof. destruct l as [|x [|y l]]; simpl; [reflexivity|reflexivity|lia]. Qed.

(** A threshold of a feature lies strictly between the values of two
    samples of the node, and no sample has a value between those two. *)
Lemma thresholds_between (S : list (sample * bool)) (f : nat) (t : Q) :
  In t (thresholds S f) ->
  exists s1 s2,
    In s1 S /\ In s2 S /\
    (feature_of f (fst s1) < t)%Q /\ (t < feature_of f (fst s2))%Q /\
    forall s, In s S ->
      (feature_of f (fst s) <= feature_of f (fst s1))%Q \/
      (feature_of f (fst s2) <= feature_of f (fst s))%Q.
Proof.
  unfold thresholds. intros Ht.
  apply midpoints_in in Ht; [|apply distinct_sorted_sorted].
  destruct Ht as (a & b & Ha & Hb & Hat & Htb & _ & Hbetween).
  apply distinct_sorted_in, in_map_iff in Ha, Hb.
  destruct Ha as (s1 & <- & Hs1), Hb as (s2 & <- & Hs2).
  exists s1, s2. repeat split; try assumption.
  intros s Hs.
  destruct (distinct_sorted_covers
              (map (fun s => feature_of f (fst s)) S) (feature_of f (fst s)))
    as (w & Hw & Ew); [apply in_map_iff; eauto|].
  rewrite Ew. apply Hbetween, Hw.
Qed.

Lemma thresholds_split (S : list (sample * bool)) (f : nat) (t : Q) :
  In t (thresholds S f) ->
  left_of S f t <> [] /\ right_of S f t <> [].
Proof.
  intros Ht.
  destruct (thresholds_between S f t Ht) as (s1 & s2 & Hs1 & Hs2 & Hat & Htb & _).
  split.
  - assert (H : In s1 (left_of S f t)).
    { apply filter_In. split; [exact Hs1|].
      apply Qle_bool_iff, Qlt_le_weak, Hat. }
    intros E. rewrite E in H. exact H.
  - assert (H : In s2 (right_of S f t)).
    { apply filter_In. split; [exact Hs2|].
      unfold goes_left. destruct (Qle_bool _ t) eqn:E; [|reflexivity].
      apply Qle_bool_iff in E. exfalso. exact (Qlt_not_le _ _ Htb E). }
    intros E. rewrite E in H. exact H.
Qed.

(** On well-spaced samples a feature with two different values at a node
    has a threshold. *)
Lemma thresholds_nonempty (S : list (sample * bool)) (f : nat)
      (s1 s2 : sample * bool) :
  well_spaced S ->
  In s1 S -> In s2 S ->
  ~ (feature_of f (fst s1) == feature_of f (fst s2))%Q ->
  thresholds S f <> [].
Proof.
  intros [_ Hspaced] H1 H2 Hne. unfold thresholds.
  set (l := map (fun s => feature_of f (fst s)) S).
  destruct (distinct_sorted_covers l (feature_of f (fst s1)))
    as (w1 & Hw1 & E1); [apply in_map_iff; eauto|].
  destruct (distinct_sorted_covers l (feature_of f (fst s2)))
    as (w2 & Hw2 & E2); [apply in_map_iff; eauto|].
  pose proof (distinct_sorted_sorted l) as Hsorted.
  pose proof (distinct_sorted_in l) as Hin.
  destruct (distinct_sorted l) as [|x [|y r]].
  - destruct Hw1.
  - destruct Hw1 as [<-|[]], Hw2 as [<-|[]].
    exfalso. apply Hne. rewrite E1, E2. reflexivity.
  - apply midpoints_nonempty.
    assert (Hxy : (x < y)%Q) by (inversion Hsorted; assumption).
    assert (Hx : In x l) by (apply Hin; left; reflexivity).
    assert (Hy : In y l) by (apply Hin; right; left; reflexivity).
    apply in_map_iff in Hx, Hy.
    destruct Hx as (sx & <- & Hsx), Hy as (sy & <- & Hsy).
    destruct (Hspaced f sx sy Hsx Hsy) as [E|[E|E]]; cbv zeta in E.
    + rewrite E in Hxy. exfalso. exact (Qlt_irrefl _ Hxy).
    + eapply Qle_lt_trans; [|exact E].
      unfold FEATURE_THRESHOLD. Lqa.lra.
    + exfalso. apply (Qlt_irrefl (feature_of f (fst sx))).
      eapply Qlt_trans; [exact Hxy|].
      eapply Qle_lt_trans; [|exact E].
      unfold FEATURE_THRESHOLD. Lqa.lra.
Qed.

(** A constant feature has no threshold. *)
Lemma thresholds_constant (S : list (sample * bool)) (f : nat) :
  (forall s1 s2, In s1 S -> In s2 S ->
     (feature_of f (fst s1) == feature_of f (fst s2))%Q) ->
  thresholds S f = [].
Proof.
  intros Hconst. unfold thresholds. apply midpoints_constant.
  set (l := map (fun s => feature_of f (fst s)) S).
  pose proof (distinct_sorted_sorted l) as Hsorted.
  pose proof (distinct_sorted_in l) as Hin.
  destruct (distinct_sorted l) as [|x [|y r]]; simpl; try lia.
  exfalso.
  assert (Hxy : (x < y)%Q) by (inversion Hsorted; assumption).
  assert (Hx : In x l) by (apply Hin; left; reflexivity).
  assert (Hy : In y l) by (apply Hin; right; left; reflexivity).
  apply in_map_iff in Hx, Hy.
  destruct Hx as (sx & <- & Hsx), Hy as (sy & <- & Hsy).
  rewrite (Hconst sx sy Hsx Hsy) in Hxy. exact (Qlt_irrefl _ Hxy).
Qed.

Lemma well_spaced_incl (S S' : list (sample * bool)) :
  well_spaced S -> (forall s, In s S' -> In s S) -> well_spaced S'.
Proof.
  intros [Hexact Hgap] Hincl. split.
  - intros s Hs. apply Hexact, Hincl, Hs.
  - intros f s1 s2 H1 H2. apply Hgap; apply Hincl; assumption.
Qed.

Lemma count_class_witness (c : bool) (S : list (sample * bool)) :
  count_class c S <> 0 -> exists s, In s S /\ snd s = c.
Proof.
  unfold count_class. intros H.
  destruct (filter (fun s => Bool.eqb (snd s) c) S) as [|s l] eqn:E;
    [contradiction|].
  assert (Hs : In s (filter (fun s => Bool.eqb (snd s) c) S))
    by (rewrite E; left; reflexivity).
  apply filter_In in Hs. destruct Hs as (Hs & Hc).
  exists s. split; [exact Hs|]. apply Bool.eqb_prop, Hc.
Qed.

Lemma correct_pure_leaf (S : list (sample * bool)) :
  count_class false S = 0 \/ count_class true S = 0 ->
  correct (Leaf (count_class false S) (count_class true S)) S = List.length S.
Proof.
  intros H. rewrite correct_leaf. pose proof (count_class_total S).
  destruct (Nat.ltb_spec (count_class false S) (count_class true S)); lia.
Qed.

Lemma separable_incl (order : visiting) (S S' : list (sample * bool)) :
  separable order S -> (forall s, In s S' -> In s S) -> separable order S'.
Proof.
  intros H Hincl path s1 s2 H1 H2. apply H; apply Hincl; assumption.
Qed.

Section Memorise.
Variable order : visiting.

(** With a level per sample to spare, every impure node is split into two
    smaller ones, down to pure leaves. *)
Lemma build_memorises (d : nat) :
  forall path S,
    well_spaced S -> separable order S -> List.length S <= d + 1 ->
    correct (build order d path S) S = List.length S.
Proof.
  induction d as [|d IH]; intros path S Hspaced Hsep Hlen.
  - simpl. apply correct_pure_leaf. pose proof (count_class_total S). lia.
  - rewrite build_succ.
    destruct ((count_class false S =? 0) || (count_class true S =? 0)) eqn:E.
    { apply correct_pure_leaf. apply orb_prop in E.
      destruct E as [E|E]; apply Nat.eqb_eq in E; auto. }
    apply orb_false_elim in E. destruct E as (E0 & E1).
    apply Nat.eqb_neq in E0, E1.
    destruct (count_class_witness false S E0) as (s1 & Hs1 & Hc1).
    destruct (count_class_witness true S E1) as (s2 & Hs2 & Hc2).
    destruct (Hsep path s1 s2 Hs1 Hs2) as (f & Hf & Hne); [congruence|].
    pose proof (thresholds_nonempty S f s1 s2 Hspaced Hs1 Hs2 Hne) as Hth.
    destruct (best_split S (order path)) as [c|] eqn:Hbest.
    + unfold best_split in Hbest.
      destruct (scan_first_best _ c Hbest) as (l1 & l2 & Hsplit & _).
      assert (Hc : In c (candidates S (order path))).
      { rewrite Hsplit. apply in_or_app. right. left. reflexivity. }
      destruct (candidate_inv S (order path) c Hc) as (_ & Ht & _).
      destruct (thresholds_split S _ _ Ht) as (Hl & Hr).
      pose proof (left_right_length S (cand_feature c) (cand_threshold c)) as Hsum.
      assert (Hleft : forall s,
                In s (left_of S (cand_feature c) (cand_threshold c)) -> In s S)
        by (intros s Hs; apply filter_In in Hs; apply Hs).
      assert (Hright : forall s,
                In s (right_of S (cand_feature c) (cand_threshold c)) -> In s S)
        by (intros s Hs; apply filter_In in Hs; apply Hs).
      rewrite correct_node, !IH.
      * exact Hsum.
      * exact (well_spaced_incl S _ Hspaced Hright).
      * exact (separable_incl order S _ Hsep Hright).
      * destruct (left_of S (cand_feature c) (cand_threshold c));
          [contradiction|]. simpl in Hsum. lia.
      * exact (well_spaced_incl S _ Hspaced Hleft).
      * exact (separable_incl order S _ Hsep Hleft).
      * destruct (right_of S (cand_feature c) (cand_threshold c));
          [contradiction|]. simpl in Hsum. lia.
    + exfalso. unfold best_split in Hbest. apply scan_none in Hbest.
      destruct (thresholds S f) as [|t ts] eqn:Et; [contradiction|].
      assert (Hin : In (mkCandidate f t (split_cost S f t))
                       (candidates S (order path))).
      { unfold candidates. apply in_flat_map. exists f. split; [exact Hf|].
        rewrite Et. left. reflexivity. }
      rewrite Hbest in Hin. exact Hin.
Qed.

End Memorise.

Lemma all_correct_predict (t : tree) (X : list sample) (y : list bool) :
  List.length y = List.length X ->
  correct t (combine X y) = List.length X ->
  predict t X = y.
Proof.
  unfold correct, predict. revert y.
  induction X as [|x X IH]; intros [|b y] Hlen H; try discriminate;
    [reflexivity|].
  simpl in *.
  pose proof (filter_length_le
                (fun s => Bool.eqb (predict_one t (fst s)) (snd s))
                (combine X y)) as Hle.
  rewrite length_combine in Hle.
  destruct (Bool.eqb (predict_one t x) b) eqn:E; simpl in H; [|lia].
  apply Bool.eqb_prop in E. rewrite E. f_equal. apply IH; lia.
Qed.


Lemma two_compounds_separable (order : visiting) :
  (forall path, In 0 (order path)) ->
  separable order (combine two_compounds two_classes).
Proof.
  intros Hvisit path s1 s2 H1 H2 Hne. exists 0. split; [apply Hvisit|].
  simpl in H1, H2.
  destruct H1 as [<-|[<-|[]]], H2 as [<-|[<-|[]]]; simpl in *;
    try contradiction; intros E; discriminate E.
Qed.

Lemma two_compounds_well_spaced :
  well_spaced (combine two_compounds two_classes).
Proof.
  split.
  - intros s [<-|[<-|[]]]; simpl;
      repeat constructor; solve [apply float32_exact_0|apply float32_exact_1].
  - intros f s1 s2 [<-|[<-|[]]] [<-|[<-|[]]];
      destruct f as [|[|[|[|[|f]]]]]; cbv zeta;
      solve [left; reflexivity
            |right; left; reflexivity
            |right; right; reflexivity
            |left; destruct f; reflexivity].
Qed.


(** ** The split a node keeps *)

Lemma Zpos_self_power (k : nat) :
  Z.pos (self_power k) = (Z.of_nat k ^ Z.of_nat k)%Z.
Proof. unfold self_power. apply Z2Pos.id, self_power_pos. Qed.

Lemma self_power_product (n0 n1 : nat) :
  (Z.of_nat n0 ^ Z.of_nat n0 * Z.of_nat n1 ^ Z.of_nat n1
   <= Z.of_nat (n0 + n1) ^ Z.of_nat (n0 + n1))%Z /\
  (n0 <> 0 -> n1 <> 0 ->
   (Z.of_nat n0 ^ Z.of_nat n0 * Z.of_nat n1 ^ Z.of_nat n1
    < Z.of_nat (n0 + n1) ^ Z.of_nat (n0 + n1))%Z).
Proof.
  rewrite Nat2Z.inj_add, Z.pow_add_r by lia.
  pose proof (self_power_pos n0) as H0. pose proof (self_power_pos n1) as H1.
  assert (L0 : (Z.of_nat n0 ^ Z.of_nat n0
                <= (Z.of_nat n0 + Z.of_nat n1) ^ Z.of_nat n0)%Z)
    by (apply Z.pow_le_mono_l; lia).
  assert (L1 : (Z.of_nat n1 ^ Z.of_nat n1
                <= (Z.of_nat n0 + Z.of_nat n1) ^ Z.of_nat n1)%Z)
    by (apply Z.pow_le_mono_l; lia).
  split; [nia|].
  intros N0 N1.
  assert (S0 : (Z.of_nat n0 ^ Z.of_nat n0
                < (Z.of_nat n0 + Z.of_nat n1) ^ Z.of_nat n0)%Z)
    by (apply Z.pow_lt_mono_l; lia).
  nia.
Qed.

Lemma perplexity_ge_1 (S : list (sample * bool)) : (1 <= perplexity S)%Q.
Proof.
  unfold perplexity, Qle. cbn [Qnum Qden].
  rewrite Pos2Z.inj_mul, !Zpos_self_power.
  pose proof (self_power_product (count_class false S) (count_class true S)).
  lia.
Qed.

Lemma perplexity_pure (S : list (sample * bool)) :
  pure S = true <-> (perplexity S == 1)%Q.
Proof.
  unfold pure, perplexity, Qeq. cbn [Qnum Qden].
  rewrite Pos2Z.inj_mul, !Zpos_self_power.
  destruct (self_power_product (count_class false S) (count_class true S))
    as (_ & Hlt).
  rewrite orb_true_iff, !Nat.eqb_eq. split.
  - intros [->| ->]; cbn [Nat.add]; rewrite ?Nat.add_0_r;
      change (Z.of_nat 0 ^ Z.of_nat 0)%Z with 1%Z; lia.
  - intros E.
    destruct (Nat.eq_dec (count_class false S) 0) as [E0|E0]; [left; exact E0|].
    destruct (Nat.eq_dec (count_class true S) 0) as [E1|E1]; [right; exact E1|].
    specialize (Hlt E0 E1). lia.
Qed.

(** A split has the least possible cost exactly when it separates the
    classes. *)
Lemma separates_cost (S : list (sample * bool)) (visit : list nat)
      (c : candidate) :
  In c (candidates S visit) ->
  (1 <= cand_cost c)%Q /\
  (separates S c = true <-> (cand_cost c == 1)%Q).
Proof.
  intros Hc. destruct (candidate_inv S visit c Hc) as (_ & _ & ->).
  unfold separates, split_cost.
  set (l := left_of S (cand_feature c) (cand_threshold c)).
  set (r := right_of S (cand_feature c) (cand_threshold c)).
  pose proof (perplexity_ge_1 l) as Hl. pose proof (perplexity_ge_1 r) as Hr.
  rewrite andb_true_iff, !perplexity_pure.
  split; [Lqa.nra|].
  split.
  - intros [-> ->]. reflexivity.
  - intros E. split; Lqa.nra.
Qed.

Lemma candidates_none (S : list (sample * bool)) (visit : list nat) :
  (forall f, In f visit -> thresholds S f = []) -> candidates S visit = [].
Proof.
  unfold candidates. induction visit as [|f v IH]; intros H; [reflexivity|].
  simpl. rewrite (H f) by (left; reflexivity). simpl.
  apply IH. intros g Hg. apply H. right. exact Hg.
Qed.

Section KeptSplit.
Variables (S : list (sample * bool)) (visit : list nat).


End KeptSplit.

